(** * DataProcessor: validation, statistics, anomaly flags, filters and
      record preparation of [utils/data_processor.py]

    The module works on pandas DataFrames.  A DataFrame is modelled by its
    row index (integer labels) and its columns (a finite map from column
    name to the list of cells of that column, so column names are unique).
    Numbers are the values a float64 cell can hold: a rational, one of the
    two infinities, or NaN; signed zeros are not distinguished.  Where the
    outcome of the code hangs on the rounding, the operations round as
    float64 does: the power check of the validation and the reductions sum,
    mean and std round the result of every operation to the nearest float64
    (ties to even, overflow to an infinity, gradual underflow to 0); the
    order in which a sum adds its values is left open.  The window means,
    the exponential weighting, the quantiles, and the products and quotients
    that [calculate_statistics] forms of the reductions are written as the
    exact formulas, which the code follows up to rounding.  The columns
    are float64 columns; a column of integers is read as the float64 column
    of the same values, which is what the code computes as long as the
    integers and their products are below 2^53 in size. *)

From Stdlib Require Import QArith Qabs Qround Lqa ZArith.
From stdpp Require Import gmap strings list fin_maps pretty.

Local Open Scope string_scope.
Local Open Scope list_scope.

(** ** Numbers *)

Inductive fl : Type :=
  | Fin (q : Q)
  | PInf
  | NInf
  | NaN.

Definition Qsgn_cmp (q : Q) : comparison := (0 ?= q)%Q.

Definition fneg (x : fl) : fl :=
  match x with
  | Fin q => Fin (- q)%Q
  | PInf => NInf
  | NInf => PInf
  | NaN => NaN
  end.

Definition fadd (x y : fl) : fl :=
  match x, y with
  | NaN, _ | _, NaN => NaN
  | Fin a, Fin b => Fin (a + b)%Q
  | PInf, NInf | NInf, PInf => NaN
  | PInf, _ | _, PInf => PInf
  | NInf, _ | _, NInf => NInf
  end.

Definition fsub (x y : fl) : fl := fadd x (fneg y).

(** An infinity times a finite number takes the sign of the product; an
    infinity times zero is NaN. *)
Definition inf_of_sign (q : Q) : fl :=
  match Qsgn_cmp q with
  | Lt => PInf
  | Gt => NInf
  | Eq => NaN
  end.

Definition fmul (x y : fl) : fl :=
  match x, y with
  | NaN, _ | _, NaN => NaN
  | Fin a, Fin b => Fin (a * b)%Q
  | PInf, Fin q | Fin q, PInf => inf_of_sign q
  | NInf, Fin q | Fin q, NInf => inf_of_sign (- q)%Q
  | PInf, PInf | NInf, NInf => PInf
  | PInf, NInf | NInf, PInf => NInf
  end.

(** Division of float64 values never raises: a finite number over zero is
    an infinity (NaN for zero over zero), anything finite over an infinity
    is zero. *)
Definition fdiv (x y : fl) : fl :=
  match x, y with
  | NaN, _ | _, NaN => NaN
  | Fin a, Fin b =>
      if Qeq_bool b 0 then inf_of_sign a else Fin (a / b)%Q
  | Fin _, (PInf | NInf) => Fin 0
  | (PInf | NInf), (PInf | NInf) => NaN
  | PInf, Fin b => if Qle_bool 0 b then PInf else NInf
  | NInf, Fin b => if Qle_bool 0 b then NInf else PInf
  end.

Definition fabs (x : fl) : fl :=
  match x with
  | Fin q => Fin (Qabs q)
  | PInf | NInf => PInf
  | NaN => NaN
  end.

Definition Qlt_bool (a b : Q) : bool := negb (Qle_bool b a).

(** Comparisons with NaN are false. *)
Definition flt (x y : fl) : bool :=
  match x, y with
  | NaN, _ | _, NaN => false
  | Fin a, Fin b => Qlt_bool a b
  | NInf, (Fin _ | PInf) => true
  | Fin _, PInf => true
  | _, _ => false
  end.

Definition fgt (x y : fl) : bool := flt y x.

Definition feqb (x y : fl) : bool :=
  match x, y with
  | Fin a, Fin b => Qeq_bool a b
  | PInf, PInf | NInf, NInf => true
  | _, _ => false
  end.

Definition is_nan (x : fl) : bool :=
  match x with NaN => true | _ => false end.

Definition is_fin (x : fl) : bool :=
  match x with Fin _ => true | _ => false end.

(** Equality of numbers up to the representation of the rational. *)
Definition feq (x y : fl) : Prop :=
  match x, y with
  | Fin a, Fin b => (a == b)%Q
  | PInf, PInf | NInf, NInf | NaN, NaN => True
  | _, _ => False
  end.

Definition of_Z (z : Z) : fl := Fin (inject_Z z).

(** ** Rounding to float64 *)

Definition two_pow (e : Z) : Q :=
  if (0 <=? e)%Z then inject_Z (2 ^ e) else (1 # Z.to_pos (2 ^ (- e)))%Q.

(** The exponent [e] with 2^e <= a < 2^(e+1), for a positive [a]. *)
Definition Qlog2 (a : Q) : Z :=
  let e := (Z.log2 (Qnum a) - Z.log2 (Zpos (Qden a)))%Z in
  if Qle_bool (two_pow e) a then e else (e - 1)%Z.

Definition round_half_even (m : Q) : Z :=
  let f := Qfloor m in
  match (m - inject_Z f ?= 1 # 2)%Q with
  | Lt => f
  | Gt => (f + 1)%Z
  | Eq => if Z.even f then f else (f + 1)%Z
  end.

(** The float64 nearest to a rational: 53 bits of precision, exponents from
    -1022 (below which the spacing stays 2^-1074) to 1023 (above which the
    result is an infinity). *)
Definition round64 (q : Q) : fl :=
  if Qeq_bool q 0 then Fin 0
  else
    let a := Qabs q in
    let e := Z.max (Qlog2 a) (-1022) in
    let ulp := two_pow (e - 52) in
    let r := (inject_Z (round_half_even (a / ulp)) * ulp)%Q in
    if Qle_bool (two_pow 1024) r then (if Qle_bool 0 q then PInf else NInf)
    else Fin (Qred (if Qle_bool 0 q then r else - r)).

Arguments round64 : simpl never.

Definition rounded (x : fl) : fl :=
  match x with
  | Fin q => round64 q
  | _ => x
  end.

(** The four operations of float64. *)
Definition fadd64 (x y : fl) : fl := rounded (fadd x y).
Definition fsub64 (x y : fl) : fl := rounded (fsub x y).
Definition fmul64 (x y : fl) : fl := rounded (fmul x y).
Definition fdiv64 (x y : fl) : fl := rounded (fdiv x y).

(** ** Cells and DataFrames *)

Inductive cell : Type :=
  | CNum (x : fl)
  | CStr (s : string)
  | CBool (b : bool)
  | CNull.

Record DataFrame : Type := mkDF {
  index : list Z;
  columns : gmap string (list cell)
}.

Definition has_column (df : DataFrame) (name : string) : bool :=
  bool_decide (is_Some (columns df !! name)).

(** [df.rename(columns={old: new}, inplace=True)] *)
Definition rename_column (old new : string) (df : DataFrame) : DataFrame :=
  match columns df !! old with
  | Some c => mkDF (index df) (<[new := c]> (delete old (columns df)))
  | None => df
  end.

(** [df[name] = c] *)
Definition set_column (name : string) (c : list cell) (df : DataFrame)
  : DataFrame :=
  mkDF (index df) (<[name := c]> (columns df)).

(** ** Exceptions *)

Inductive exn : Type := KeyError | TypeError | ValueError | OverflowError.

Inductive result (A : Type) : Type :=
  | Ok (a : A)
  | Raise (e : exn).
Arguments Ok {A} a.
Arguments Raise {A} e.

#[global] Instance result_ret : MRet result := fun _ a => Ok a.
#[global] Instance result_bind : MBind result := fun _ _ f m =>
  match m with
  | Ok a => f a
  | Raise e => Raise e
  end.

(** ** What the module takes from Python, numpy and pandas

    The behaviour of the number parsers on text, the printing of numbers,
    the clock, the square root and the order in which a sum adds its values
    are left open: every statement below holds for each choice of them. *)
Class Runtime : Type := {
  (** [pandas.to_numeric(errors='coerce')] on a string: the number read,
      NaN when the text is not a number *)
  str_to_numeric : string -> fl;
  (** [float(s)] on a string, [None] when it raises ValueError *)
  float_of_str : string -> option fl;
  (** [int(s)] on a string, [None] when it raises ValueError *)
  int_of_str : string -> option Z;
  (** [str(x)] on a number *)
  str_of_num : fl -> string;
  (** the k-th reading of [datetime.now()] during a call *)
  now : nat -> Z;
  (** [numpy.sqrt] on a finite number that is not negative; of the square
      root only the sign of its result is used *)
  sqrt_num : Q -> Q;
  sqrt_num_zero : forall q, (q == 0)%Q -> (sqrt_num q == 0)%Q;
  sqrt_num_pos : forall q, (0 < q)%Q -> (0 < sqrt_num q)%Q;
  (** the float64 sum of values that are not NaN, in the order in which
      numpy adds them: the sum of no value is 0.0, and a sum that is a
      finite number has added finite numbers only *)
  float_sum : list fl -> fl;
  float_sum_nil : float_sum [] = Fin 0;
  float_sum_fin : forall l,
    is_fin (float_sum l) = true -> Forall (fun x => is_fin x = true) l
}.

(** ** Series *)

(** Arithmetic and comparisons of a column are followed for columns that
    hold a number in every cell.  On a column with a text, [None] or
    boolean cell pandas raises in some operations and computes in others;
    here every such column raises, and the statements on what an operation
    returns are about columns of numbers. *)
Definition as_number (c : cell) : result fl :=
  match c with
  | CNum x => Ok x
  | _ => Raise TypeError
  end.

Definition numeric (col : list cell) : result (list fl) := mapM as_number col.

(** [df[name]] read as a numeric Series *)
Definition series (df : DataFrame) (name : string) : result (list fl) :=
  match columns df !! name with
  | Some col => numeric col
  | None => Raise KeyError
  end.

Definition any (bs : list bool) : bool := existsb id bs.

Definition isna (c : cell) : bool :=
  match c with
  | CNum x => is_nan x
  | CNull => true
  | _ => false
  end.

Section Validate.
Context `{Runtime}.

Definition to_numeric_cell (c : cell) : cell :=
  match c with
  | CNum x => CNum x
  | CStr s => CNum (str_to_numeric s)
  | CBool b => CBool b
  | CNull => CNum NaN
  end.

(** [pd.to_numeric(col, errors='coerce')] *)
Definition to_numeric (col : list cell) : list cell :=
  map to_numeric_cell col.

Definition required_columns : list string := ["电流"; "电压"; "功率"].

Definition alt_columns : list (string * list string) :=
  [ ("电流", ["current"; "Current"; "I"; "i"]);
    ("电压", ["voltage"; "Voltage"; "V"; "v"]);
    ("功率", ["power"; "Power"; "P"; "p"]) ].

(** The inner loop of the renaming: the first alias that is a column, while
    the canonical name is not one, is renamed, and the loop breaks. *)
Fixpoint rename_first_alias (cn_name : string) (alt_names : list string)
    (df : DataFrame) : DataFrame :=
  match alt_names with
  | [] => df
  | alt :: rest =>
      if has_column df alt && negb (has_column df cn_name)
      then rename_column alt cn_name df
      else rename_first_alias cn_name rest df
  end.

Definition normalize_columns (df : DataFrame) : DataFrame :=
  foldl (fun d '(cn_name, alt_names) => rename_first_alias cn_name alt_names d)
        df alt_columns.

Definition missing_columns (df : DataFrame) : list string :=
  filter (fun col => has_column df col = false) required_columns.

(** One round of the type check: the column is replaced by its coercion,
    and an error is recorded when the coerced column holds a NaN.  With
    [errors='coerce'] the coercion of a column of cells does not raise, so
    the handler of the [try] is never entered. *)
Definition coerce_column (st : DataFrame * list string) (col : string)
  : DataFrame * list string :=
  let '(df, errors) := st in
  match columns df !! col with
  | Some c =>
      let df := set_column col (to_numeric c) df in
      match columns df !! col with
      | Some c' =>
          if any (map isna c')
          then (df, errors ++ ["列 '" +:+ col +:+ "' 包含非数值数据"])
          else (df, errors)
      | None => (df, errors)
      end
  | None => (df, errors)
  end.

Definition check_range (df : DataFrame) (col : string) (hi : Q)
    (msg_neg msg_over : string) (errors : list string)
  : result (list string) :=
  if has_column df col then
    s ← series df col;
    let errors :=
      if any (map (fun x => flt x (Fin 0)) s) then errors ++ [msg_neg]
      else errors in
    let errors :=
      if any (map (fun x => fgt x (Fin hi)) s) then errors ++ [msg_over]
      else errors in
    mret errors
  else mret errors.

Definition check_power (df : DataFrame) (errors : list string)
  : result (list string) :=
  if forallb (has_column df) ["电流"; "电压"; "功率"] then
    i ← series df "电流";
    v ← series df "电压";
    p ← series df "功率";
    let calculated_power := zip_with fmul64 i v in
    let power_diff := map fabs (zip_with fsub64 p calculated_power) in
    if any (zip_with fgt power_diff
              (map (fun x => fmul64 x (round64 (5 # 100))) calculated_power))
    then mret (errors ++ ["功率值与电流电压计算值偏差过大"])
    else mret errors
  else mret errors.

(** [validate_experiment_data(df)]: the DataFrame of the result is the
    state in which the call leaves the caller's object (the renaming and the
    coercion are done in place). *)
Definition validate_experiment_data (df : DataFrame)
  : result (DataFrame * (bool * list string)) :=
  let errors := [] in
  let df := normalize_columns df in
  let errors :=
    match missing_columns df with
    | [] => errors
    | missing =>
        errors ++ ["缺少必需列: " +:+ String.concat ", " missing]
    end in
  let '(df, errors) := foldl coerce_column (df, errors) required_columns in
  errors ← check_range df "电流" 1000
             "电流值不能为负数" "电流值超出合理范围 (>1000A)" errors;
  errors ← check_range df "电压" 10000
             "电压值不能为负数" "电压值超出合理范围 (>10000V)" errors;
  errors ← check_power df errors;
  mret (df, (bool_decide (errors = []), errors)).

End Validate.

(** ** Reductions of a numeric Series (pandas skips NaN in all of them) *)

Definition dropna (s : list fl) : list fl :=
  filter (fun x => is_nan x = false) s.

Definition fsum (s : list fl) : fl := foldl fadd (Fin 0) s.

Definition of_nat (n : nat) : fl := of_Z (Z.of_nat n).

Definition fmax (x y : fl) : fl := if flt x y then y else x.
Definition fmin (x y : fl) : fl := if flt y x then y else x.

Definition series_max (s : list fl) : fl :=
  match dropna s with
  | [] => NaN
  | x :: v => foldl fmax x v
  end.

Definition series_min (s : list fl) : fl :=
  match dropna s with
  | [] => NaN
  | x :: v => foldl fmin x v
  end.

Definition fle (x y : fl) : bool := negb (flt y x).

Fixpoint insert_sorted (x : fl) (l : list fl) : list fl :=
  match l with
  | [] => [x]
  | y :: l' => if fle x y then x :: l else y :: insert_sorted x l'
  end.

Definition sort_values (l : list fl) : list fl := foldr insert_sorted [] l.

(** The median of values without NaN: the middle one of the sorted values,
    the mean of the two middle ones for an even count. *)
Definition median_of (v : list fl) : fl :=
  let sorted := sort_values v in
  let n := length sorted in
  match n with
  | O => NaN
  | _ =>
      if Nat.even n
      then fdiv (fadd (default NaN (sorted !! (n / 2 - 1)%nat))
                      (default NaN (sorted !! (n / 2)%nat))) (Fin 2)
      else default NaN (sorted !! (n / 2)%nat)
  end.

Definition series_median (s : list fl) : fl := median_of (dropna s).

(** [Series.quantile(q)]: linear interpolation between the two sorted
    values around position q (n - 1). *)
Definition series_quantile (q : Q) (s : list fl) : fl :=
  let sorted := sort_values (dropna s) in
  match length sorted with
  | O => NaN
  | S m =>
      let pos := (q * inject_Z (Z.of_nat m))%Q in
      let lo := Qfloor pos in
      let frac := (pos - inject_Z lo)%Q in
      let vlo := default NaN (sorted !! Z.to_nat lo) in
      if Qeq_bool frac 0 then vlo
      else
        let vhi := default NaN (sorted !! S (Z.to_nat lo)) in
        fadd vlo (fmul (fsub vhi vlo) (Fin frac))
  end.

Section Statistics.
Context `{Runtime}.

Definition series_sum (s : list fl) : fl := float_sum (dropna s).

Definition series_mean (s : list fl) : fl :=
  match dropna s with
  | [] => NaN
  | v => fdiv64 (float_sum v) (of_nat (length v))
  end.

Definition fsqrt (x : fl) : fl :=
  match x with
  | Fin q => if Qle_bool 0 q then Fin (sqrt_num q) else NaN
  | PInf => PInf
  | NInf | NaN => NaN
  end.

(** [Series.std()]: the sample standard deviation (ddof = 1) of the values
    that are not NaN, NaN for fewer than two of them. *)
Definition series_std (s : list fl) : fl :=
  let v := dropna s in
  let count := length v in
  if (count <=? 1)%nat then NaN
  else
    let avg := fdiv64 (float_sum v) (of_nat count) in
    let sqr := map (fun x => let d := fsub64 avg x in fmul64 d d) v in
    fsqrt (fdiv64 (float_sum sqr) (of_nat (count - 1))).

Definition column_statistics (df : DataFrame) (stats : gmap string fl)
    (col : string) : result (gmap string fl) :=
  if has_column df col then
    s ← series df col;
    let stats := <[col +:+ "_平均值" := series_mean s]> stats in
    let stats := <[col +:+ "_最大值" := series_max s]> stats in
    let stats := <[col +:+ "_最小值" := series_min s]> stats in
    let stats := <[col +:+ "_标准差" := series_std s]> stats in
    let stats := <[col +:+ "_中位数" := series_median s]> stats in
    mret stats
  else mret stats.

Fixpoint for_columns (df : DataFrame) (cols : list string)
    (stats : gmap string fl) : result (gmap string fl) :=
  match cols with
  | [] => mret stats
  | col :: rest =>
      stats ← column_statistics df stats col;
      for_columns df rest stats
  end.

(** [calculate_statistics(df)] *)
Definition calculate_statistics (df : DataFrame) : result (gmap string fl) :=
  stats ← for_columns df ["电流"; "电压"; "功率"] ∅;
  if has_column df "功率" then
    p ← series df "功率";
    let stats := <["总能量" := fmul (series_sum p) (Fin (1 # 1000))]> stats in
    if has_column df "电流" && has_column df "电压" then
      i ← series df "电流";
      v ← series df "电压";
      mret (<["功率因数" :=
               fdiv (series_mean p) (fmul (series_mean i) (series_mean v))]>
              stats)
    else mret (<["功率因数" := Fin 0]> stats)
  else mret stats.

(** [detect_anomalies(df, column, method)]: works on a copy of [df], which
    it returns with the flags in column 异常; any other method than the two
    returns the copy as it is.  The difference and the quotient of a score
    are written without rounding: the difference of two float64 numbers is
    0.0 only when they are equal, and a quotient by 0.0 is decided by the
    sign of the dividend. *)
Definition detect_anomalies (df : DataFrame) (column method : string)
  : result DataFrame :=
  if String.eqb method "iqr" then
    s ← series df column;
    let Q1 := series_quantile (1 # 4) s in
    let Q3 := series_quantile (3 # 4) s in
    let IQR := fsub Q3 Q1 in
    let lower_bound := fsub Q1 (fmul (Fin (3 # 2)) IQR) in
    let upper_bound := fadd Q3 (fmul (Fin (3 # 2)) IQR) in
    mret (set_column "异常"
            (map (fun x => CBool (flt x lower_bound || fgt x upper_bound)) s)
            df)
  else if String.eqb method "zscore" then
    s ← series df column;
    let mean := series_mean s in
    let std := series_std s in
    let z_scores := map (fun x => fabs (fdiv (fsub x mean) std)) s in
    mret (set_column "异常" (map (fun z => CBool (fgt z (Fin 3))) z_scores) df)
  else mret df.

End Statistics.

(** ** Rolling windows and exponential weighting *)

(** The bounds of the centred window of size [w] at position [i] of a
    Series of [n] values, clipped to the Series. *)
Definition window_bounds (n : nat) (w : Z) (i : nat) : nat * nat :=
  let offset := ((w - 1) / 2)%Z in
  let e := (Z.of_nat i + 1 + offset)%Z in
  let s := (e - w)%Z in
  let clip := fun x => Z.to_nat (Z.max 0 (Z.min x (Z.of_nat n))) in
  (clip s, clip e).

Definition window_values (s : list fl) (w : Z) (i : nat) : list fl :=
  let '(a, b) := window_bounds (length s) w i in
  take (b - a) (drop a s).

(** [Series.rolling(window=w, center=True)] followed by an aggregation: a
    window gives a value when it holds at least [w] observations (the
    default of min_periods), NaN otherwise. *)
Definition rolling (agg : list fl -> fl) (w : Z) (s : list fl) : list fl :=
  map (fun i =>
         let obs := dropna (window_values s w i) in
         if (w <=? Z.of_nat (length obs))%Z && (0 <? length obs)%nat
         then agg obs else NaN)
      (seq 0 (length s)).

Definition mean_of (obs : list fl) : fl := fdiv (fsum obs) (of_nat (length obs)).

(** The recurrence of [Series.ewm(span, adjust=False).mean()], with the
    state of the pandas loop: the weighted mean so far, the weight of the
    past, and the number of observations. *)
Fixpoint ewm_loop (alpha : Q) (weighted : fl) (old_wt : Q) (nobs : nat)
    (vals : list fl) : list fl :=
  match vals with
  | [] => []
  | cur :: rest =>
      let is_observation := negb (is_nan cur) in
      let nobs := (nobs + (if is_observation then 1 else 0))%nat in
      let '(weighted, old_wt) :=
        if negb (is_nan weighted) then
          let old_wt := (old_wt * (1 - alpha))%Q in
          if is_observation then
            ((if feqb weighted cur then weighted
              else fdiv (fadd (fmul (Fin old_wt) weighted)
                              (fmul (Fin alpha) cur))
                        (Fin (old_wt + alpha))),
             1%Q)
          else (weighted, old_wt)
        else if is_observation then (cur, old_wt)
        else (weighted, old_wt) in
      (if (1 <=? nobs)%nat then weighted else NaN)
        :: ewm_loop alpha weighted old_wt nobs rest
  end.

Definition ewm_mean (span : Z) (s : list fl) : list fl :=
  let alpha := (2 / (inject_Z span + 1))%Q in
  match s with
  | [] => []
  | x :: rest =>
      let nobs := if is_nan x then O else 1%nat in
      (if (1 <=? nobs)%nat then x else NaN) :: ewm_loop alpha x 1 nobs rest
  end.

(** [f.fillna(raw)]: a missing value of [f] is taken from [raw] at the same
    row. *)
Fixpoint fillna (f raw : list cell) : list cell :=
  match f, raw with
  | c :: f', r :: raw' => (if isna c then r else c) :: fillna f' raw'
  | _, _ => f
  end.

Definition filtered_name (column : string) : string := column +:+ "_filtered".

(** The Series of a column for a rolling or exponentially weighted
    computation: the column must exist, the window must be admissible, and
    the cells must be numbers. *)
Definition windowed (df : DataFrame) (column : string) (w_min w : Z)
  : result (list fl) :=
  match columns df !! column with
  | None => Raise KeyError
  | Some col => if (w <? w_min)%Z then Raise ValueError else numeric col
  end.

(** [filter_data(df, column, method, window_size)]: works on a copy of
    [df]; the last statement fills the NaN of the filtered column from the
    raw column (the in-place [fillna] on [df[name]] writes through to the
    table, as it does in pandas without copy-on-write).  A method other
    than the three leaves no filtered column to fill, and the lookup
    raises. *)
Definition filter_data (df : DataFrame) (column method : string)
    (window_size : Z) : result DataFrame :=
  let name := filtered_name column in
  df ← (if String.eqb method "moving_average" then
          s ← windowed df column 0 window_size;
          mret (set_column name (map CNum (rolling mean_of window_size s)) df)
        else if String.eqb method "exponential" then
          s ← windowed df column 1 window_size;
          mret (set_column name (map CNum (ewm_mean window_size s)) df)
        else if String.eqb method "median" then
          s ← windowed df column 0 window_size;
          mret (set_column name (map CNum (rolling median_of window_size s)) df)
        else mret df);
  match columns df !! name with
  | None => Raise KeyError
  | Some f =>
      match columns df !! column with
      | None => Raise KeyError
      | Some raw => mret (set_column name (fillna f raw) df)
      end
  end.

(** ** Records for the database *)

Record record : Type := mkRecord {
  experiment_id : string;
  sequence_number : Z;
  current : fl;
  voltage : fl;
  power : fl;
  device_address : Z;
  device_type : string;
  (** the cell of the row, or a reading of the clock *)
  timestamp : cell + Z;
  temperature : option fl;
  humidity : option fl
}.

(** [df.iterrows()]: the label of each row with the row as a mapping from
    column name to cell. *)
Definition iterrows (df : DataFrame) : list (Z * gmap string cell) :=
  imap (fun i idx => (idx, omap (fun col : list cell => col !! i) (columns df)))
       (index df).

Definition Qtruncate (q : Q) : Z :=
  if Qle_bool 0 q then Qfloor q else Qceiling q.

Section Records.
Context `{Runtime}.

(** [float(x)] *)
Definition py_float (c : cell) : result fl :=
  match c with
  | CNum x => Ok x
  | CStr s =>
      match float_of_str s with
      | Some x => Ok x
      | None => Raise ValueError
      end
  | CBool b => Ok (Fin (if b then 1 else 0))
  | CNull => Raise TypeError
  end.

(** [int(x)] *)
Definition py_int (c : cell) : result Z :=
  match c with
  | CNum (Fin q) => Ok (Qtruncate q)
  | CNum NaN => Raise ValueError
  | CNum _ => Raise OverflowError
  | CStr s =>
      match int_of_str s with
      | Some z => Ok z
      | None => Raise ValueError
      end
  | CBool b => Ok (if b then 1 else 0)%Z
  | CNull => Raise TypeError
  end.

(** [str(x)] *)
Definition py_str (c : cell) : string :=
  match c with
  | CNum x => str_of_num x
  | CStr s => s
  | CBool b => if b then "True" else "False"
  | CNull => "None"
  end.

Definition optional_float (row : gmap string cell) (key : string)
  : result (option fl) :=
  match row !! key with
  | Some c => x ← py_float c; mret (Some x)
  | None => mret None
  end.

(** The body of the loop for the [k]-th row, of label [idx]. *)
Definition make_record (exp_id : string) (k : nat) (idx : Z)
    (row : gmap string cell) : result record :=
  cur ← py_float (default (CNum (Fin 0)) (row !! "电流"));
  vol ← py_float (default (CNum (Fin 0)) (row !! "电压"));
  pow ← py_float (default (CNum (Fin 0)) (row !! "功率"));
  addr ← py_int (default (CNum (Fin 1)) (row !! "设备地址"));
  let dtype := py_str (default (CStr "未知") (row !! "设备类型")) in
  let ts := match row !! "时间戳" with
            | Some c => inl c
            | None => inr (now k)
            end in
  temp ← optional_float row "温度";
  hum ← optional_float row "湿度";
  mret (mkRecord exp_id (idx + 1) cur vol pow addr dtype ts temp hum).

Fixpoint prepare_rows (exp_id : string) (k : nat)
    (rows : list (Z * gmap string cell)) : result (list record) :=
  match rows with
  | [] => mret []
  | (idx, row) :: rest =>
      r ← make_record exp_id k idx row;
      rs ← prepare_rows exp_id (S k) rest;
      mret (r :: rs)
  end.

(** [prepare_for_database(df, experiment_id)] *)
Definition prepare_for_database (df : DataFrame) (exp_id : string)
  : result (list record) :=
  prepare_rows exp_id 0 (iterrows df).

End Records.

(** ** An instance for the examples

    Texts made of decimal digits only are numbers, every other text is not;
    the square root is rounded up to a multiple of the inverse of the
    denominator; the clock ticks once per reading; a sum adds its values
    in the order of the rows, as numpy does for fewer than 8 of them. *)

Fixpoint digits_value (acc : Z) (s : string) : option Z :=
  match s with
  | EmptyString => Some acc
  | String a rest =>
      let n := Z.of_nat (Ascii.nat_of_ascii a) in
      if ((48 <=? n) && (n <=? 57))%Z
      then digits_value (10 * acc + (n - 48))%Z rest
      else None
  end.

Definition parse_digits (s : string) : option Z :=
  match s with
  | EmptyString => None
  | _ => digits_value 0 s
  end.

Definition sample_sqrt (q : Q) : Q :=
  if Qle_bool q 0 then 0%Q
  else (Z.sqrt_up (Qnum q * Zpos (Qden q)) # Qden q)%Q.

Definition sample_runtime : Runtime.
Proof.
  refine {|
    str_to_numeric := fun s =>
      match parse_digits s with Some z => of_Z z | None => NaN end;
    float_of_str := fun s => of_Z <$> parse_digits s;
    int_of_str := parse_digits;
    str_of_num := fun x =>
      match x with
      | Fin q => pretty (Qfloor q)
      | PInf => "inf"
      | NInf => "-inf"
      | NaN => "nan"
      end;
    now := fun k => (1700000000 + Z.of_nat k)%Z;
    sqrt_num := sample_sqrt;
    sqrt_num_zero := _;
    sqrt_num_pos := _;
    float_sum := foldl fadd64 (Fin 0);
    float_sum_nil := eq_refl;
    float_sum_fin := _
  |}.
  - intros q Hq. unfold sample_sqrt.
    destruct (Qle_bool q 0) eqn:E; [reflexivity|].
    assert (Qle_bool q 0 = true) as E' by (apply Qle_bool_iff; lra).
    congruence.
  - intros q Hq. unfold sample_sqrt.
    destruct (Qle_bool q 0) eqn:E.
    + apply Qle_bool_iff in E. lra.
    + destruct q as [n d]. unfold Qlt in *. simpl in *.
      assert (0 < Z.sqrt_up (n * Z.pos d))%Z by (apply Z.sqrt_up_pos; lia).
      lia.
  - assert (forall l acc, is_fin (foldl fadd64 acc l) = true ->
              is_fin acc = true /\ Forall (fun x => is_fin x = true) l) as Hsum.
    { induction l as [|x l IH]; intros acc Hs; [by split|].
      cbn [foldl] in Hs. destruct (IH _ Hs) as [Ha Hl].
      assert (is_fin acc = true /\ is_fin x = true) as [Hacc Hx]
        by (destruct acc, x; try discriminate Ha; by split).
      split; [done|]. by constructor. }
    intros l Hl. by destruct (Hsum l (Fin 0) Hl).
Defined.

(** The examples that name no instance are computed with this one; inside
    a section the instance of the section comes first. *)
#[global] Existing Instance sample_runtime | 100.

Definition num (z : Z) : cell := CNum (of_Z z).
Definition nums (l : list Z) : list cell := map num l.

(** ** Tables of the examples *)

(** A table read from a file and then sorted: the labels of the rows are
    no longer in ascending order. *)
Definition df_sorted : DataFrame :=
  mkDF [2; 0; 1]%Z
       (list_to_map [("电流", nums [1; 2; 3]%Z);
                     ("电压", nums [10; 10; 10]%Z);
                     ("功率", nums [10; 20; 30]%Z)]).

(** A table without the three measurement columns and without time. *)
Definition df_bare : DataFrame :=
  mkDF [0; 1]%Z (list_to_map [("设备类型", [CStr "PVRSD"; CStr "PVRSD"])]).


(** A table with English column names and a power within the tolerance. *)
Definition df_english : DataFrame :=
  mkDF [0; 1]%Z
       (list_to_map [("current", nums [10; 20]%Z);
                     ("Voltage", nums [100; 100]%Z);
                     ("P", nums [1000; 2050]%Z)]).

(** A table with an alias column that holds text, a negative voltage, an
    empty cell and no power. *)
Definition df_messy : DataFrame :=
  mkDF [0; 1]%Z
       (list_to_map [("I", [num 5; CStr "abc"]);
                     ("v", [num (-3); CNull]);
                     ("note", [CStr "a"; CStr "b"])]).

Definition df_five : DataFrame :=
  mkDF [0; 1; 2; 3; 4]%Z {[ "x" := nums [1; 2; 3; 4; 5]%Z ]}.

(** A column of identical values, with an empty cell. *)
Definition df_flat : DataFrame :=
  mkDF [0; 1; 2; 3]%Z {[ "x" := [num 5; num 5; CNum NaN; num 5] ]}.

(** A table with the canonical current column and an alias of it. *)
Definition df_both : DataFrame :=
  mkDF [0; 1]%Z
       (list_to_map [("电流", nums [1; 2]%Z); ("current", nums [9; 9]%Z)]).

(** A table with two aliases of the current column. *)
Definition df_two_aliases : DataFrame :=
  mkDF [0; 1]%Z
       (list_to_map [("i", nums [7; 8]%Z); ("I", nums [1; 2]%Z)]).

(** A table with English column names only. *)
Definition df_records : DataFrame :=
  mkDF [0; 1]%Z
       (list_to_map [("current", nums [1; 2]%Z);
                     ("voltage", nums [10; 10]%Z);
                     ("power", nums [10; 20]%Z)]).

(** A table that has only the power column. *)
Definition df_power_only : DataFrame :=
  mkDF [0; 1]%Z (list_to_map [("功率", nums [1000; 2000]%Z)]).

(** A table with the three columns and no row. *)
Definition df_empty : DataFrame :=
  mkDF [] (list_to_map [("电流", []); ("电压", []); ("功率", [])]).

(** A table with a single row. *)
Definition df_one : DataFrame := mkDF [0]%Z {[ "x" := [num 7] ]}.

(** A table with device columns, a temperature, and an empty power cell
    in its second row. *)
Definition df_devices : DataFrame :=
  mkDF [0; 1]%Z
       (list_to_map [("电流", nums [1; 2]%Z);
                     ("功率", [num 10; CNull]);
                     ("设备类型", [CStr "PVRSD"; CStr "PVRSD"]);
                     ("温度", nums [25; 26]%Z)]).

(** The float64 numbers nearest to 0.1, 0.3 and 0.0315: a power at the edge
    of the tolerance. *)
Definition df_boundary : DataFrame :=
  mkDF [0]%Z
       (list_to_map [("电流", [CNum (round64 (1 # 10))]);
                     ("电压", [CNum (round64 (3 # 10))]);
                     ("功率", [CNum (round64 (315 # 10000))])]).

(** The float64 number 0.1 x 2^-500, and a column that holds it three
    times. *)
Definition tiny : fl := Fin (3602879701896397 # Z.to_pos (2 ^ 555)).

Definition df_tiny : DataFrame :=
  mkDF [0; 1; 2]%Z {[ "x" := [CNum tiny; CNum tiny; CNum tiny] ]}.

(** A column with a gap. *)
Definition df_gap : DataFrame :=
  mkDF [0; 1; 2]%Z {[ "x" := [num 1; CNum NaN; num 3] ]}.



(** ** Vocabulary of the statements *)

Section Vocabulary.
Context `{Runtime}.

(** The keys whose cells [prepare_for_database] passes to [float]. *)
Definition float_keys : list string := ["电流"; "电压"; "功率"; "温度"; "湿度"].

Definition is_ok {A} (r : result A) : bool :=
  match r with Ok _ => true | Raise _ => false end.

Definition cell_convertible (key : string) (c : cell) : bool :=
  (if bool_decide (key ∈ float_keys) then is_ok (py_float c) else true)
  && (if bool_decide (key = "设备地址") then is_ok (py_int c) else true).

(** The cells that [prepare_for_database] converts can be converted. *)
Definition convertible (df : DataFrame) : Prop :=
  map_Forall (fun key col => forallb (cell_convertible key) col = true)
             (columns df).



Definition row_convertible (row : gmap string cell) : Prop :=
  (forall key c, key ∈ float_keys -> row !! key = Some c ->
     exists x, py_float c = Ok x) /\
  (forall c, row !! "设备地址" = Some c -> exists z, py_int c = Ok z).

(** The table is settled for a canonical name when that name is a column
    or none of its aliases is one: the loop then does nothing. *)
Definition settled (cn : string) (alts : list string) (df : DataFrame) : Prop :=
  has_column df cn = true \/ Forall (fun alt => has_column df alt = false) alts.

Definition normalized (df : DataFrame) : Prop :=
  Forall (fun '(cn, alts) => settled cn alts df) alt_columns.

Definition alias_names : list string :=
  concat (map snd alt_columns).

(** The table after the round of the type check for one column, and the
    error of that round. *)
Definition coerce1 (col : string) (df : DataFrame) : DataFrame :=
  match columns df !! col with
  | Some c => set_column col (to_numeric c) df
  | None => df
  end.

Definition coerce_err (col : string) (df : DataFrame) : list string :=
  match columns df !! col with
  | Some c =>
      if any (map isna (to_numeric c))
      then ["列 '" +:+ col +:+ "' 包含非数值数据"]
      else []
  | None => []
  end.

Definition coerced (df : DataFrame) : DataFrame :=
  coerce1 "功率" (coerce1 "电压" (coerce1 "电流" df)).

(** The error for the columns that are missing. *)
Definition missing_err (df : DataFrame) : list string :=
  match missing_columns df with
  | [] => []
  | missing => ["缺少必需列: " +:+ String.concat ", " missing]
  end.

(** The part of the validation that reads the table and no longer changes
    it. *)
Definition checks (df : DataFrame) (errors : list string)
  : result (DataFrame * (bool * list string)) :=
  errors ← check_range df "电流" 1000
             "电流值不能为负数" "电流值超出合理范围 (>1000A)" errors;
  errors ← check_range df "电压" 10000
             "电压值不能为负数" "电压值超出合理范围 (>10000V)" errors;
  errors ← check_power df errors;
  mret (df, (bool_decide (errors = []), errors)).

Definition type_errors (df : DataFrame) : list string :=
  coerce_err "电流" df ++ coerce_err "电压" df ++ coerce_err "功率" df.

(** The number a cell is coerced to. *)
Definition cell_value (c : cell) : fl :=
  match to_numeric_cell c with
  | CNum x => x
  | _ => NaN
  end.

Definition not_bool (c : cell) : bool :=
  match c with CBool _ => false | _ => true end.

(** The cell is coerced to a finite number between [lo] and [hi]. *)
Definition finite_in (lo hi : Q) (c : cell) : bool :=
  match to_numeric_cell c with
  | CNum (Fin q) => Qle_bool lo q && Qle_bool q hi
  | _ => false
  end.

Definition finite_cell (c : cell) : bool :=
  match to_numeric_cell c with
  | CNum (Fin _) => true
  | _ => false
  end.

(** The power of a row is within 5 % of the product of its current and
    voltage. *)
Definition consistent (c v p : cell) : bool :=
  match to_numeric_cell c, to_numeric_cell v, to_numeric_cell p with
  | CNum (Fin qc), CNum (Fin qv), CNum (Fin qp) =>
      Qle_bool (Qabs (qp - qc * qv)) ((5 # 100) * (qc * qv))
  | _, _, _ => false
  end.

(** The test of the power check on a row, with the float64 operations of
    the code: the row is not flagged. *)
Definition within_tolerance (c v p : cell) : bool :=
  match to_numeric_cell c, to_numeric_cell v, to_numeric_cell p with
  | CNum x, CNum y, CNum z =>
      negb (fgt (fabs (fsub64 z (fmul64 x y)))
                (fmul64 (fmul64 x y) (round64 (5 # 100))))
  | _, _, _ => false
  end.

(** No cell of the table is a boolean. *)
Definition bool_free (df : DataFrame) : Prop :=
  map_Forall (fun _ col => forallb not_bool col = true) (columns df).

(** The centred window of size [w] at position [i] lies within a Series of
    [n] values. *)
Definition window_fits (n : nat) (w : Z) (i : nat) : Prop :=
  (0 <= Z.of_nat i + 1 + (w - 1) / 2 - w)%Z /\
  (Z.of_nat i + 1 + (w - 1) / 2 <= Z.of_nat n)%Z.


(** The values a method computes before the filling of the gaps. *)
Definition filter_values (method : string) (w : Z) (s : list fl) : list fl :=
  if String.eqb method "moving_average" then rolling mean_of w s
  else if String.eqb method "exponential" then ewm_mean w s
  else rolling median_of w s.

Definition supported (method : string) : Prop :=
  method = "moving_average" \/ method = "exponential" \/ method = "median".


(** The recurrence of the exponential moving average, from the value
    [prev] before the first of [ys]. *)
Fixpoint recurrence (alpha prev : Q) (ys qs : list Q) : Prop :=
  match ys, qs with
  | [], [] => True
  | y :: ys', x :: qs' =>
      (y == alpha * x + (1 - alpha) * prev)%Q /\ recurrence alpha y ys' qs'
  | _, _ => False
  end.

End Vocabulary.

(** ** Vocabulary of the further properties *)

Section FurtherVocabulary.
Context `{Runtime}.

(** The errors of a range check on a numeric Series. *)
Definition range_errors (s : list fl) (hi : Q) (msg_neg msg_over : string)
  : list string :=
  (if any (map (fun x => flt x (Fin 0)) s) then [msg_neg] else [])
  ++ (if any (map (fun x => fgt x (Fin hi)) s) then [msg_over] else []).

Definition range_part (df : DataFrame) (col : string) (hi : Q)
    (msg_neg msg_over : string) : list string :=
  if has_column df col then
    match series df col with
    | Ok s => range_errors s hi msg_neg msg_over
    | Raise _ => []
    end
  else [].

(** The flags of the power check, one per row. *)
Definition power_flags (i v p : list fl) : list bool :=
  zip_with fgt (map fabs (zip_with fsub64 p (zip_with fmul64 i v)))
           (map (fun x => fmul64 x (round64 (5 # 100))) (zip_with fmul64 i v)).

Definition power_part (df : DataFrame) : list string :=
  if forallb (has_column df) ["电流"; "电压"; "功率"] then
    match series df "电流", series df "电压", series df "功率" with
    | Ok i, Ok v, Ok p =>
        if any (power_flags i v p) then ["功率值与电流电压计算值偏差过大"]
        else []
    | _, _, _ => []
    end
  else [].

(** The five entries of one column. *)
Definition add_column_entries (col : string) (s : list fl)
    (stats : gmap string fl) : gmap string fl :=
  <[col +:+ "_中位数" := series_median s]>
    (<[col +:+ "_标准差" := series_std s]>
       (<[col +:+ "_最小值" := series_min s]>
          (<[col +:+ "_最大值" := series_max s]>
             (<[col +:+ "_平均值" := series_mean s]> stats)))).

Definition column_entries (df : DataFrame) (col : string)
    (stats : gmap string fl) : gmap string fl :=
  if has_column df col then
    match series df col with
    | Ok s => add_column_entries col s stats
    | Raise _ => stats
    end
  else stats.

(** The entries of the three columns, as the loop leaves them. *)
Definition measured_entries (df : DataFrame) : gmap string fl :=
  column_entries df "功率"
    (column_entries df "电压" (column_entries df "电流" ∅)).

Definition entry_keys (col : string) : list string :=
  [col +:+ "_平均值"; col +:+ "_最大值"; col +:+ "_最小值";
   col +:+ "_标准差"; col +:+ "_中位数"].

Definition between (lo hi q : Q) : Prop := (lo <= q <= hi)%Q.

End FurtherVocabulary.

(** * Properties *)

Lemma bind_Ok {A B} (m : result A) (f : A -> result B) (b : B) :
  m ≫= f = Ok b -> exists a, m = Ok a /\ f a = Ok b.
Proof. destruct m as [a|e]; simpl; [eauto | discriminate]. Qed.

(** Closed decidable statements are settled by evaluation. *)
Ltac by_computation := apply (bool_decide_unpack _); vm_compute; exact I.

Lemma result_bind_Ok {A B} (a : A) (f : A -> result B) : Ok a ≫= f = f a.
Proof. reflexivity. Qed.

Ltac inv_bind H :=
  let a := fresh "a" in
  let Ha := fresh "H" a in
  apply bind_Ok in H as (a & Ha & H).

Section RecordProperties.
Context `{Runtime}.

Lemma iterrows_lookup (df : DataFrame) (i : nat) (idx : Z)
    (row : gmap string cell) :
  iterrows df !! i = Some (idx, row) ->
  index df !! i = Some idx /\
  row = omap (fun col : list cell => col !! i) (columns df).
Proof.
  unfold iterrows. rewrite list_lookup_imap.
  destruct (index df !! i) as [z|]; simpl; [|discriminate].
  intros [= <- <-]. done.
Qed.

Lemma is_ok_true {A} (r : result A) : is_ok r = true -> exists a, r = Ok a.
Proof. destruct r; simpl; [eauto | discriminate]. Qed.

Lemma convertible_row (df : DataFrame) (i : nat) (idx : Z)
    (row : gmap string cell) :
  convertible df -> iterrows df !! i = Some (idx, row) -> row_convertible row.
Proof.
  intros Hc Hi. apply iterrows_lookup in Hi as [_ ->].
  assert (forall key c,
            omap (fun col : list cell => col !! i) (columns df) !! key = Some c ->
            cell_convertible key c = true) as Hcell.
  { intros key c. rewrite lookup_omap.
    destruct (columns df !! key) as [col|] eqn:E; simpl; [|discriminate].
    intros Hl. apply list_elem_of_lookup_2 in Hl.
    specialize (Hc key col E). simpl in Hc.
    rewrite forallb_forall in Hc. apply Hc. by apply list_elem_of_In. }
  split.
  - intros key c Hk Hl. specialize (Hcell key c Hl).
    unfold cell_convertible in Hcell. rewrite bool_decide_eq_true_2 in Hcell by done.
    apply andb_true_iff in Hcell as [Hf _]. by apply is_ok_true.
  - intros c Hl. specialize (Hcell _ c Hl).
    unfold cell_convertible in Hcell.
    rewrite (bool_decide_eq_true_2 ("设备地址" = "设备地址")) in Hcell by done.
    apply andb_true_iff in Hcell as [_ Hi]. by apply is_ok_true.
Qed.

Lemma py_float_default (row : gmap string cell) (key : string) :
  key ∈ float_keys -> row_convertible row ->
  exists x, py_float (default (CNum (Fin 0)) (row !! key)) = Ok x /\
            (row !! key = None -> x = Fin 0).
Proof.
  intros Hk [Hf _]. destruct (row !! key) as [c|] eqn:E; simpl.
  - destruct (Hf key c Hk E) as [x Hx]. exists x. split; [done|discriminate].
  - eauto.
Qed.

Lemma optional_float_ok (row : gmap string cell) (key : string) :
  key ∈ float_keys -> row_convertible row ->
  exists o, optional_float row key = Ok o.
Proof.
  intros Hk [Hf _]. unfold optional_float.
  destruct (row !! key) as [c|] eqn:E; [|eauto].
  destruct (Hf key c Hk E) as [x ->]. simpl. eauto.
Qed.

(** A row whose present cells convert gives a record; the fields of the
    record are read off the row. *)
Lemma make_record_ok (exp_id : string) (k : nat) (idx : Z)
    (row : gmap string cell) :
  row_convertible row ->
  exists r, make_record exp_id k idx row = Ok r /\
    sequence_number r = (idx + 1)%Z /\
    (row !! "电流" = None -> current r = Fin 0) /\
    (row !! "电压" = None -> voltage r = Fin 0) /\
    (row !! "功率" = None -> power r = Fin 0) /\
    timestamp r = match row !! "时间戳" with
                  | Some c => inl c
                  | None => inr (now k)
                  end.
Proof.
  intros Hrow. unfold make_record.
  destruct (py_float_default row "电流") as (cur & -> & Hcur);
    [set_solver | done |].
  destruct (py_float_default row "电压") as (vol & -> & Hvol);
    [set_solver | done |].
  destruct (py_float_default row "功率") as (pow & -> & Hpow);
    [set_solver | done |].
  assert (exists z, py_int (default (CNum (Fin 1)) (row !! "设备地址")) = Ok z)
    as [addr ->].
  { destruct Hrow as [_ Hi].
    destruct (row !! "设备地址") as [c|]; simpl; eauto. }
  destruct (optional_float_ok row "温度") as [temp ->]; [set_solver | done |].
  destruct (optional_float_ok row "湿度") as [hum ->]; [set_solver | done |].
  simpl. eexists. split; [reflexivity|]. simpl. auto.
Qed.

Lemma prepare_rows_ok (exp_id : string) (rows : list (Z * gmap string cell)) :
  forall k,
  (forall i idx row, rows !! i = Some (idx, row) -> row_convertible row) ->
  exists recs, prepare_rows exp_id k rows = Ok recs /\
    length recs = length rows /\
    forall i idx row, rows !! i = Some (idx, row) ->
      exists r, recs !! i = Some r /\
                make_record exp_id (k + i) idx row = Ok r.
Proof.
  induction rows as [|[idx row] rows IH]; intros k Hrows; simpl.
  - exists []. split; [done|]. split; [done|]. intros i ? ? Hi.
    rewrite lookup_nil in Hi. discriminate.
  - destruct (make_record_ok exp_id k idx row) as (r & Hr & _).
    { apply (Hrows 0%nat idx row). done. }
    destruct (IH (S k)) as (recs & Hrecs & Hlen & Hall).
    { intros i idx' row' Hi. apply (Hrows (S i) idx' row'). done. }
    rewrite Hr, Hrecs. simpl. exists (r :: recs).
    split; [done|]. split; [simpl; congruence|].
    intros [|i] idx' row' Hi; simpl in Hi.
    + injection Hi as <- <-. exists r. rewrite Nat.add_0_r. done.
    + destruct (Hall i idx' row' Hi) as (r' & Hl & Hm).
      exists r'. split; [done|]. rewrite <- Hm. f_equal. lia.
Qed.

Lemma make_record_inv (exp_id : string) (k : nat) (idx : Z)
    (row : gmap string cell) (r : record) :
  make_record exp_id k idx row = Ok r ->
  experiment_id r = exp_id /\
  sequence_number r = (idx + 1)%Z /\
  py_float (default (CNum (Fin 0)) (row !! "电流")) = Ok (current r) /\
  py_float (default (CNum (Fin 0)) (row !! "电压")) = Ok (voltage r) /\
  py_float (default (CNum (Fin 0)) (row !! "功率")) = Ok (power r) /\
  py_int (default (CNum (Fin 1)) (row !! "设备地址")) = Ok (device_address r) /\
  device_type r = py_str (default (CStr "未知") (row !! "设备类型")) /\
  optional_float row "温度" = Ok (temperature r) /\
  optional_float row "湿度" = Ok (humidity r).
Proof.
  unfold make_record. intros Hm.
  destruct (py_float (default (CNum (Fin 0)) (row !! "电流"))) as [cur|];
    [|discriminate]. rewrite result_bind_Ok in Hm.
  destruct (py_float (default (CNum (Fin 0)) (row !! "电压"))) as [vol|];
    [|discriminate]. rewrite result_bind_Ok in Hm.
  destruct (py_float (default (CNum (Fin 0)) (row !! "功率"))) as [pow|];
    [|discriminate]. rewrite result_bind_Ok in Hm.
  destruct (py_int (default (CNum (Fin 1)) (row !! "设备地址"))) as [addr|];
    [|discriminate]. rewrite result_bind_Ok in Hm. cbv zeta in Hm.
  destruct (optional_float row "温度") as [temp|]; [|discriminate].
  rewrite result_bind_Ok in Hm.
  destruct (optional_float row "湿度") as [hum|]; [|discriminate].
  rewrite result_bind_Ok in Hm.
  assert (r = mkRecord exp_id (idx + 1) cur vol pow addr
                (py_str (default (CStr "未知") (row !! "设备类型")))
                match row !! "时间戳" with
                | Some c => inl c
                | None => inr (now k)
                end temp hum) as ->
    by (symmetry; exact (f_equal (fun x => match x with Ok a => a | _ => r end) Hm)).
  repeat split; reflexivity.
Qed.

End RecordProperties.

Section RecordClaims.
Context `{Runtime}.

(** C3 (amended): when the cells to convert can be converted,
    [prepare_for_database] returns one record per row, in row order, and
    the sequence number of a record is the index label of its row plus one;
    for a table that carries the default labels 0, 1, ..., n-1 these are the
    positions 1, 2, ..., n. *)
Theorem prepare_for_database_sequence_is_label (df : DataFrame)
    (exp_id : string) :
  convertible df ->
  exists recs, prepare_for_database df exp_id = Ok recs /\
    length recs = length (index df) /\
    map sequence_number recs = map (fun idx => (idx + 1)%Z) (index df) /\
    forall n, index df = map Z.of_nat (seq 0 n) ->
      map sequence_number recs = map Z.of_nat (seq 1 n).
Proof.
  intros Hc. unfold prepare_for_database.
  destruct (prepare_rows_ok exp_id (iterrows df) 0) as (recs & Hrecs & Hlen & Hall).
  { intros i idx row Hi. eapply convertible_row; eauto. }
  assert (length (iterrows df) = length (index df)) as Hn
    by (unfold iterrows; apply length_imap).
  assert (map sequence_number recs = map (fun idx => (idx + 1)%Z) (index df))
    as Hseq.
  { apply list_eq. intros i. rewrite !list_lookup_fmap.
    destruct (index df !! i) as [idx|] eqn:E; simpl.
    - assert (iterrows df !! i =
              Some (idx, omap (fun col : list cell => col !! i) (columns df)))
        as Hi by (unfold iterrows; rewrite list_lookup_imap, E; done).
      destruct (Hall _ _ _ Hi) as (r & -> & Hm). simpl.
      destruct (make_record_ok exp_id (0 + i) idx
                  (omap (fun col : list cell => col !! i) (columns df)))
        as (r' & Hr' & Hs & _).
      { eapply convertible_row; eauto. }
      congruence.
    - apply lookup_ge_None in E.
      rewrite (proj2 (lookup_ge_None recs i)) by lia. done. }
  exists recs. split; [done|]. split; [congruence|]. split; [done|].
  intros n Hidx. rewrite Hseq, Hidx, <- seq_shift, !map_map.
  apply map_ext. intros a. lia.
Qed.


End RecordClaims.

Lemma df_sorted_convertible : @convertible sample_runtime df_sorted.
Proof. by_computation. Qed.

Lemma df_bare_convertible : @convertible sample_runtime df_bare.
Proof. by_computation. Qed.

(** The sequence numbers of a sorted table follow the labels, not the
    positions. *)
Lemma prepare_for_database_sorted_counterexample :
  exists recs,
    @prepare_for_database sample_runtime df_sorted "e1" = Ok recs /\
    map sequence_number recs = [3; 1; 2]%Z /\
    map sequence_number recs <> [1; 2; 3]%Z.
Proof. eexists. split; [vm_compute; reflexivity|]. split; [reflexivity|discriminate]. Qed.

Lemma prepare_for_database_sequence_is_label_witness :
  @convertible sample_runtime df_sorted /\
  exists recs, @prepare_for_database sample_runtime df_sorted "e1" = Ok recs /\
    length recs = 3%nat.
Proof.
  split; [exact df_sorted_convertible|].
  destruct (@prepare_for_database_sequence_is_label sample_runtime df_sorted "e1"
              df_sorted_convertible) as (recs & Hr & Hl & _).
  exists recs. split; [exact Hr | exact Hl].
Defined.



(** ** Statistics *)

Lemma series_has_column (df : DataFrame) (col : string) (s : list fl) :
  series df col = Ok s -> has_column df col = true.
Proof.
  unfold series, has_column. intros Hs.
  destruct (columns df !! col) eqn:E; [|discriminate].
  apply bool_decide_eq_true_2. eauto.
Qed.


Section StatisticsClaims.
Context `{Runtime}.



End StatisticsClaims.



(** ** Renaming of the alias columns *)

Lemma df_eq (a b : DataFrame) :
  index a = index b -> (forall k, columns a !! k = columns b !! k) -> a = b.
Proof.
  destruct a as [ia ca], b as [ib cb]. simpl. intros -> Hc.
  f_equal. by apply map_eq.
Qed.

Lemma has_column_true (df : DataFrame) (k : string) :
  has_column df k = true <-> is_Some (columns df !! k).
Proof. unfold has_column. apply bool_decide_eq_true. Qed.

Lemma has_column_false (df : DataFrame) (k : string) :
  has_column df k = false <-> columns df !! k = None.
Proof.
  unfold has_column. rewrite bool_decide_eq_false.
  rewrite <- eq_None_not_Some. done.
Qed.

Lemma has_column_ext (a b : DataFrame) (k : string) :
  (is_Some (columns a !! k) <-> is_Some (columns b !! k)) ->
  has_column a k = has_column b k.
Proof. intros Hiff. unfold has_column. by apply bool_decide_ext. Qed.

Lemma rename_column_lookup (old new : string) (df : DataFrame) (k : string) :
  has_column df old = true -> old <> new ->
  columns (rename_column old new df) !! k =
    if decide (k = new) then columns df !! old
    else if decide (k = old) then None
    else columns df !! k.
Proof.
  intros Ho Hne. apply has_column_true in Ho as [c Hc].
  unfold rename_column. rewrite Hc. simpl.
  destruct (decide (k = new)) as [->|Hk].
  - by rewrite lookup_insert_eq.
  - rewrite lookup_insert_ne by done.
    destruct (decide (k = old)) as [->|Hk'].
    + by rewrite lookup_delete_eq.
    + by rewrite lookup_delete_ne.
Qed.

Lemma rename_column_index (old new : string) (df : DataFrame) :
  index (rename_column old new df) = index df.
Proof. unfold rename_column. by destruct (columns df !! old). Qed.

(** What one round of the renaming loop does: nothing, or one renaming of
    an alias that is a column while the canonical name is not. *)
Lemma rename_first_alias_cases (cn : string) (alts : list string)
    (df : DataFrame) :
  (rename_first_alias cn alts df = df /\
   (has_column df cn = true \/ Forall (fun alt => has_column df alt = false) alts))
  \/ (exists alt, alt ∈ alts /\ has_column df alt = true /\
        has_column df cn = false /\
        rename_first_alias cn alts df = rename_column alt cn df).
Proof.
  induction alts as [|alt rest IH]; simpl.
  - left. split; [done|]. right. constructor.
  - destruct (has_column df alt) eqn:Ea; simpl.
    + destruct (has_column df cn) eqn:Ec; simpl.
      * destruct IH as [[Heq _]|(a & _ & _ & Hc & _)]; [|congruence].
        left. split; [done|]. by left.
      * right. exists alt. split; [left|]. done.
    + destruct IH as [[Heq Hst]|(a & Ha & Hha & Hc & Heq)].
      * left. split; [done|]. destruct Hst as [Hst|Hst]; [by left|].
        right. by constructor.
      * right. exists a. split; [by right|]. done.
Qed.

Arguments rename_first_alias : simpl never.

Lemma rename_first_alias_index (cn : string) (alts : list string)
    (df : DataFrame) :
  index (rename_first_alias cn alts df) = index df.
Proof.
  destruct (rename_first_alias_cases cn alts df)
    as [[-> _]|(a & _ & _ & _ & ->)]; [done|].
  apply rename_column_index.
Qed.

(** A column that is neither the canonical name nor one of its aliases is
    left alone. *)
Lemma rename_first_alias_other (cn : string) (alts : list string)
    (df : DataFrame) (k : string) :
  cn ∉ alts -> k <> cn -> k ∉ alts ->
  columns (rename_first_alias cn alts df) !! k = columns df !! k.
Proof.
  intros Hcn Hk Hka.
  destruct (rename_first_alias_cases cn alts df)
    as [[-> _]|(a & Ha & Hha & _ & ->)]; [done|].
  rewrite rename_column_lookup by (done || set_solver).
  rewrite decide_False by done. rewrite decide_False by set_solver. done.
Qed.

Lemma rename_first_alias_settled_id (cn : string) (alts : list string)
    (df : DataFrame) :
  settled cn alts df -> rename_first_alias cn alts df = df.
Proof.
  intros Hs.
  destruct (rename_first_alias_cases cn alts df)
    as [[-> _]|(a & Ha & Hha & Hc & _)]; [done|].
  destruct Hs as [Hs|Hs]; [congruence|].
  rewrite Forall_forall in Hs. specialize (Hs a Ha). congruence.
Qed.

Lemma rename_first_alias_settles (cn : string) (alts : list string)
    (df : DataFrame) :
  cn ∉ alts -> settled cn alts (rename_first_alias cn alts df).
Proof.
  intros Hcn.
  destruct (rename_first_alias_cases cn alts df)
    as [[-> Hs]|(a & Ha & Hha & Hc & ->)]; [done|].
  left. apply has_column_true.
  rewrite rename_column_lookup by (done || set_solver).
  rewrite decide_True by done. by apply has_column_true.
Qed.

Lemma rename_first_alias_keeps_settled (cn : string) (alts : list string)
    (cn' : string) (alts' : list string) (df : DataFrame) :
  cn' ∉ alts' -> cn ∉ alts' -> cn' ∉ alts ->
  settled cn alts df -> settled cn alts (rename_first_alias cn' alts' df).
Proof.
  intros Hn Hc Hc' Hs.
  destruct (rename_first_alias_cases cn' alts' df)
    as [[-> _]|(a & Ha & Hha & Hca & ->)]; [done|].
  assert (a <> cn') as Hne by set_solver.
  destruct Hs as [Hs|Hs].
  - left. apply has_column_true.
    rewrite rename_column_lookup by done.
    destruct (decide (cn = cn')); [by apply has_column_true|].
    rewrite decide_False by set_solver. by apply has_column_true.
  - right. rewrite Forall_forall in *. intros alt Halt.
    apply has_column_false. rewrite rename_column_lookup by done.
    rewrite decide_False by set_solver.
    destruct (decide (alt = a)); [done|]. apply has_column_false. auto.
Qed.


Lemma normalize_columns_normalized (df : DataFrame) :
  normalized (normalize_columns df).
Proof.
  unfold normalized, normalize_columns, alt_columns. simpl.
  apply Forall_cons_2;
    [|apply Forall_cons_2; [|apply Forall_cons_2; [|apply Forall_nil_2]]].
  - do 2 (apply rename_first_alias_keeps_settled; [by_computation..|]).
    apply rename_first_alias_settles. by_computation.
  - apply rename_first_alias_keeps_settled; [by_computation..|].
    apply rename_first_alias_settles. by_computation.
  - apply rename_first_alias_settles. by_computation.
Qed.

Lemma normalized_id (df : DataFrame) :
  normalized df -> normalize_columns df = df.
Proof.
  unfold normalized, normalize_columns, alt_columns. simpl.
  intros Hn. inversion Hn as [|? ? H1 Hn1]; subst.
  inversion Hn1 as [|? ? H2 Hn2]; subst.
  inversion Hn2 as [|? ? H3 _]; subst.
  rewrite (rename_first_alias_settled_id _ _ _ H1).
  rewrite (rename_first_alias_settled_id _ _ _ H2).
  by rewrite (rename_first_alias_settled_id _ _ _ H3).
Qed.

(** The settled state speaks of the column names only. *)
Lemma normalized_same_names (a b : DataFrame) :
  (forall k, has_column b k = has_column a k) -> normalized a -> normalized b.
Proof.
  intros Hk Hn. unfold normalized.
  eapply Forall_impl; [exact Hn|]. intros [cn alts] Hs.
  destruct Hs as [Hs|Hs]; [left|right].
  - by rewrite Hk.
  - eapply Forall_impl; [exact Hs|]. simpl. intros alt Ha. by rewrite Hk.
Qed.

Lemma normalize_columns_index (df : DataFrame) :
  index (normalize_columns df) = index df.
Proof.
  unfold normalize_columns, alt_columns. simpl.
  by rewrite !rename_first_alias_index.
Qed.

Lemma normalize_columns_other (df : DataFrame) (k : string) :
  k ∉ required_columns -> k ∉ alias_names ->
  columns (normalize_columns df) !! k = columns df !! k.
Proof.
  intros Hr Ha. unfold normalize_columns, alt_columns. simpl.
  unfold required_columns in Hr. rewrite !not_elem_of_cons in Hr.
  destruct Hr as (Hr1 & Hr2 & Hr3 & _).
  unfold alias_names, alt_columns in Ha. simpl in Ha.
  change (k ∉ ["current"; "Current"; "I"; "i"]
              ++ ["voltage"; "Voltage"; "V"; "v"]
              ++ ["power"; "Power"; "P"; "p"]) in Ha.
  rewrite !not_elem_of_app in Ha. destruct Ha as (Ha1 & Ha2 & Ha3).
  rewrite !rename_first_alias_other; first done.
  all: done || by_computation.
Qed.

(** ** The type check and the range checks *)

Section ValidateProperties.
Context `{Runtime}.

Lemma coerce_column_spec (df : DataFrame) (errs : list string) (col : string) :
  coerce_column (df, errs) col = (coerce1 col df, errs ++ coerce_err col df).
Proof.
  unfold coerce_column, coerce1, coerce_err.
  destruct (columns df !! col) as [c|] eqn:E.
  - simpl. rewrite lookup_insert_eq.
    destruct (any (map isna (to_numeric c))); [done|]. by rewrite app_nil_r.
  - by rewrite app_nil_r.
Qed.

Lemma coerce1_lookup (a : string) (df : DataFrame) (k : string) :
  columns (coerce1 a df) !! k =
    if decide (k = a) then to_numeric <$> columns df !! a
    else columns df !! k.
Proof.
  unfold coerce1. destruct (columns df !! a) as [c|] eqn:E; simpl.
  - destruct (decide (k = a)) as [->|Hk].
    + by rewrite lookup_insert_eq.
    + by rewrite lookup_insert_ne.
  - destruct (decide (k = a)) as [->|Hk]; done.
Qed.

Lemma coerce_err_other (col a : string) (df : DataFrame) :
  col <> a -> coerce_err col (coerce1 a df) = coerce_err col df.
Proof.
  intros Hne. unfold coerce_err. rewrite coerce1_lookup.
  by rewrite decide_False.
Qed.

Lemma coerce1_index (a : string) (df : DataFrame) :
  index (coerce1 a df) = index df.
Proof. unfold coerce1. by destruct (columns df !! a). Qed.

Lemma coerced_lookup (df : DataFrame) (k : string) :
  columns (coerced df) !! k =
    if bool_decide (k ∈ required_columns) then to_numeric <$> columns df !! k
    else columns df !! k.
Proof.
  unfold coerced. rewrite !coerce1_lookup.
  destruct (decide (k = "功率")) as [->|H3]; [done|].
  destruct (decide (k = "电压")) as [->|H2]; [done|].
  destruct (decide (k = "电流")) as [->|H1]; [done|].
  rewrite bool_decide_eq_false_2; [done|].
  unfold required_columns. rewrite !not_elem_of_cons.
  repeat split; try done. apply not_elem_of_nil.
Qed.

Lemma coerced_index (df : DataFrame) : index (coerced df) = index df.
Proof. unfold coerced. by rewrite !coerce1_index. Qed.

Lemma foldl_coerce_column (df : DataFrame) (errs : list string) :
  foldl coerce_column (df, errs) required_columns =
    (coerced df,
     errs ++ coerce_err "电流" df ++ coerce_err "电压" df
          ++ coerce_err "功率" df).
Proof.
  unfold required_columns. cbn [foldl]. rewrite !coerce_column_spec.
  unfold coerced. f_equal. rewrite <- !app_assoc. do 2 f_equal.
  rewrite !coerce_err_other by discriminate. done.
Qed.

Lemma to_numeric_idempotent (c : list cell) :
  to_numeric (to_numeric c) = to_numeric c.
Proof.
  unfold to_numeric. rewrite map_map. apply map_ext.
  intros [x|s|b|]; reflexivity.
Qed.

Lemma has_column_coerced (df : DataFrame) (k : string) :
  has_column (coerced df) k = has_column df k.
Proof.
  apply has_column_ext. rewrite coerced_lookup.
  destruct (bool_decide (k ∈ required_columns)); [|done].
  by rewrite fmap_is_Some.
Qed.

Lemma coerced_idempotent (df : DataFrame) : coerced (coerced df) = coerced df.
Proof.
  apply df_eq; [by rewrite !coerced_index|].
  intros k. rewrite !coerced_lookup.
  destruct (bool_decide (k ∈ required_columns)); [|done].
  destruct (columns df !! k) as [c|]; simpl; [|done].
  by rewrite to_numeric_idempotent.
Qed.

Lemma coerce_err_coerced (col : string) (df : DataFrame) :
  col ∈ required_columns -> coerce_err col (coerced df) = coerce_err col df.
Proof.
  intros Hc. unfold coerce_err. rewrite coerced_lookup.
  rewrite bool_decide_eq_true_2 by done.
  destruct (columns df !! col) as [c|]; simpl; [|done].
  by rewrite to_numeric_idempotent.
Qed.

Lemma missing_columns_same_names (a b : DataFrame) :
  (forall k, has_column b k = has_column a k) ->
  missing_columns b = missing_columns a.
Proof.
  intros Hk. unfold missing_columns, required_columns.
  rewrite !filter_cons, !filter_nil. by rewrite !Hk.
Qed.

Lemma validate_experiment_data_stages (df : DataFrame) :
  validate_experiment_data df =
    checks (coerced (normalize_columns df))
           (missing_err (normalize_columns df)
              ++ type_errors (normalize_columns df)).
Proof.
  unfold validate_experiment_data, checks, missing_err, type_errors.
  destruct (missing_columns (normalize_columns df)) as [|m ms] eqn:E.
  - by rewrite foldl_coerce_column.
  - rewrite foldl_coerce_column. done.
Qed.

Lemma checks_table (df df' : DataFrame) (errs : list string)
    (r : bool * list string) :
  checks df errs = Ok (df', r) -> df' = df.
Proof.
  unfold checks. intros Hc.
  repeat inv_bind Hc. simpl in Hc. by injection Hc as <- _.
Qed.

End ValidateProperties.

(** ** Valid tables *)

Lemma any_false (bs : list bool) :
  (forall k b, bs !! k = Some b -> b = false) -> any bs = false.
Proof.
  induction bs as [|b bs IH]; intros Hb; [done|].
  unfold any in *. simpl.
  rewrite (Hb 0%nat b) by done. simpl.
  apply IH. intros k b' Hk. apply (Hb (S k)). done.
Qed.

Lemma numeric_values (xs : list fl) : numeric (map CNum xs) = Ok xs.
Proof.
  unfold numeric. induction xs as [|x xs IH]; [done|].
  simpl. unfold numeric in IH. by rewrite IH.
Qed.

Section ValidClaims.
Context `{Runtime}.

Lemma to_numeric_values (col : list cell) :
  forallb not_bool col = true ->
  to_numeric col = map CNum (map cell_value col).
Proof.
  induction col as [|c col IH]; [done|]. simpl.
  intros [Hc Hcol]%andb_true_iff. rewrite <- IH by done. f_equal.
  destruct c; simpl in *; done.
Qed.

Lemma finite_in_not_bool (lo hi : Q) (c : cell) :
  finite_in lo hi c = true -> not_bool c = true.
Proof. destruct c; simpl; done. Qed.

Lemma finite_cell_not_bool (c : cell) : finite_cell c = true -> not_bool c = true.
Proof. destruct c; simpl; done. Qed.

Lemma forallb_impl {A} (f g : A -> bool) (l : list A) :
  (forall a, f a = true -> g a = true) ->
  forallb f l = true -> forallb g l = true.
Proof.
  intros Hfg. rewrite !forallb_forall. auto.
Qed.

Lemma forallb_lookup {A} (f : A -> bool) (l : list A) (k : nat) (a : A) :
  forallb f l = true -> l !! k = Some a -> f a = true.
Proof.
  rewrite forallb_forall. intros Hf Hk. apply Hf.
  apply list_elem_of_In. by eapply list_elem_of_lookup_2.
Qed.

Lemma finite_cell_no_na (col : list cell) :
  forallb finite_cell col = true -> any (map isna (to_numeric col)) = false.
Proof.
  intros Hf. apply any_false. intros k b.
  unfold to_numeric. rewrite !list_lookup_fmap.
  destruct (col !! k) as [c|] eqn:E; simpl; [|discriminate].
  intros [= <-]. pose proof (forallb_lookup _ _ _ _ Hf E) as Hc.
  unfold finite_cell in Hc.
  destruct (to_numeric_cell c) as [[q| | |]|s|b|]; simpl in *; done.
Qed.

Lemma in_range_flags (lo hi : Q) (col : list cell) :
  forallb (finite_in lo hi) col = true ->
  any (map (fun x => flt x (Fin lo)) (map cell_value col)) = false /\
  any (map (fun x => fgt x (Fin hi)) (map cell_value col)) = false.
Proof.
  intros Hf. split; apply any_false; intros k b; rewrite !list_lookup_fmap;
    (destruct (col !! k) as [c|] eqn:E; simpl; [|discriminate]);
    intros [= <-]; pose proof (forallb_lookup _ _ _ _ Hf E) as Hc;
    unfold finite_in in Hc; unfold cell_value;
    destruct (to_numeric_cell c) as [[q| | |]|s|b|]; simpl in *; try done;
    apply andb_true_iff in Hc as [Hlo Hhi]; unfold fgt, flt, Qlt_bool;
    simpl; [by rewrite Hlo | by rewrite Hhi].
Qed.

Lemma series_coerced (df : DataFrame) (col : string) (c : list cell) :
  col ∈ required_columns -> columns df !! col = Some c ->
  forallb not_bool c = true ->
  series (coerced df) col = Ok (map cell_value c).
Proof.
  intros Hr Hc Hb. unfold series. rewrite coerced_lookup.
  rewrite bool_decide_eq_true_2 by done. rewrite Hc. simpl.
  rewrite to_numeric_values by done. apply numeric_values.
Qed.

Lemma check_range_in_range (df : DataFrame) (col : string) (c : list cell)
    (hi : Q) (m1 m2 : string) (errs : list string) :
  col ∈ required_columns -> columns df !! col = Some c ->
  forallb (finite_in 0 hi) c = true ->
  check_range (coerced df) col hi m1 m2 errs = Ok errs.
Proof.
  intros Hr Hc Hf. unfold check_range.
  rewrite has_column_coerced.
  rewrite (proj2 (has_column_true df col)) by (rewrite Hc; eauto).
  rewrite (series_coerced df col c) by
    (done || (eapply forallb_impl; [apply finite_in_not_bool | exact Hf])).
  destruct (in_range_flags 0 hi c Hf) as [Hlo Hhi].
  rewrite result_bind_Ok. cbv zeta. by rewrite Hlo, Hhi.
Qed.

End ValidClaims.

Section ValidTheorem.
Context `{Runtime}.

Lemma within_tolerance_flag (c v p : cell) :
  within_tolerance c v p = true ->
  let cp := fmul64 (cell_value c) (cell_value v) in
  fgt (fabs (fsub64 (cell_value p) cp)) (fmul64 cp (round64 (5 # 100))) = false.
Proof.
  unfold within_tolerance, cell_value.
  destruct (to_numeric_cell c) eqn:Ec; try discriminate;
    destruct (to_numeric_cell v) eqn:Ev; try discriminate;
    destruct (to_numeric_cell p) eqn:Ep; try discriminate.
  intros Hw. cbv zeta. by apply negb_true_iff.
Qed.

Lemma check_power_within_tolerance (df : DataFrame) (ci vi pi : list cell)
    (errs : list string) :
  columns df !! "电流" = Some ci -> columns df !! "电压" = Some vi ->
  columns df !! "功率" = Some pi ->
  forallb not_bool ci = true -> forallb not_bool vi = true ->
  forallb not_bool pi = true ->
  (forall k c v p, ci !! k = Some c -> vi !! k = Some v -> pi !! k = Some p ->
     within_tolerance c v p = true) ->
  check_power (coerced df) errs = Ok errs.
Proof.
  intros Hci Hvi Hpi Bi Bv Bp Hrow. unfold check_power.
  cbn [forallb]. rewrite !has_column_coerced.
  rewrite !(proj2 (has_column_true df _)) by (rewrite ?Hci, ?Hvi, ?Hpi; eauto).
  cbn [andb].
  rewrite (series_coerced df "电流" ci) by (by_computation || done).
  rewrite (series_coerced df "电压" vi) by (by_computation || done).
  rewrite (series_coerced df "功率" pi) by (by_computation || done).
  rewrite !result_bind_Ok. cbv zeta.
  rewrite any_false; [done|].
  intros k b. rewrite lookup_zip_with, !list_lookup_fmap, !lookup_zip_with,
    !list_lookup_fmap.
  destruct (pi !! k) as [p|] eqn:Ep; simpl; [|discriminate].
  destruct (ci !! k) as [c|] eqn:Ec; simpl; [|discriminate].
  destruct (vi !! k) as [v|] eqn:Ev; simpl; [|discriminate].
  intros [= <-]. apply (within_tolerance_flag c v p). eauto.
Qed.

(** C1 (amended): a table that, after the renaming of the alias columns,
    has the three columns with every value a finite number, current within
    [0, 1000], voltage within [0, 10000] and in every row a power that the
    float64 test of the code accepts (|power - current x voltage| is not
    above current x voltage x 0.05, each operation rounded), is valid: the
    call returns with the flag true and no error. *)
Theorem validate_experiment_data_valid (df : DataFrame)
    (ci vi pi : list cell) :
  columns (normalize_columns df) !! "电流" = Some ci ->
  columns (normalize_columns df) !! "电压" = Some vi ->
  columns (normalize_columns df) !! "功率" = Some pi ->
  forallb (finite_in 0 1000) ci = true ->
  forallb (finite_in 0 10000) vi = true ->
  forallb finite_cell pi = true ->
  (forall k c v p, ci !! k = Some c -> vi !! k = Some v -> pi !! k = Some p ->
     within_tolerance c v p = true) ->
  exists df', validate_experiment_data df = Ok (df', (true, [])).
Proof.
  intros Hci Hvi Hpi Fi Fv Fp Hrow.
  rewrite validate_experiment_data_stages.
  set (df1 := normalize_columns df) in *.
  assert (forallb not_bool ci = true) as Bi
    by (eapply forallb_impl; [apply finite_in_not_bool | exact Fi]).
  assert (forallb not_bool vi = true) as Bv
    by (eapply forallb_impl; [apply finite_in_not_bool | exact Fv]).
  assert (forallb not_bool pi = true) as Bp
    by (eapply forallb_impl; [apply finite_cell_not_bool | exact Fp]).
  assert (forallb finite_cell ci = true) as Ni.
  { eapply forallb_impl; [|exact Fi]. intros c. unfold finite_in, finite_cell.
    by destruct (to_numeric_cell c) as [[]| | |]. }
  assert (forallb finite_cell vi = true) as Nv.
  { eapply forallb_impl; [|exact Fv]. intros c. unfold finite_in, finite_cell.
    by destruct (to_numeric_cell c) as [[]| | |]. }
  assert (missing_err df1 = []) as ->.
  { unfold missing_err, missing_columns, required_columns.
    rewrite !filter_cons, filter_nil.
    rewrite !(proj2 (has_column_true df1 _)) by (rewrite ?Hci, ?Hvi, ?Hpi; eauto).
    rewrite !decide_False by discriminate. done. }
  assert (type_errors df1 = []) as ->.
  { unfold type_errors, coerce_err. rewrite Hci, Hvi, Hpi.
    by rewrite !finite_cell_no_na. }
  unfold checks. cbn [app].
  rewrite (check_range_in_range df1 "电流" ci) by (by_computation || done).
  rewrite result_bind_Ok.
  rewrite (check_range_in_range df1 "电压" vi) by (by_computation || done).
  rewrite result_bind_Ok.
  rewrite (check_power_within_tolerance df1 ci vi pi) by done.
  rewrite result_bind_Ok. eexists. reflexivity.
Qed.

End ValidTheorem.

(** A power within 5 % of current times voltage that the float64 test
    rejects: the product 0.1 x 0.3 is rounded up, the tolerance is rounded
    down. *)
Lemma validate_experiment_data_boundary_counterexample :
  columns (normalize_columns df_boundary) !! "电流"
    = Some [CNum (round64 (1 # 10))] /\
  columns (normalize_columns df_boundary) !! "电压"
    = Some [CNum (round64 (3 # 10))] /\
  columns (normalize_columns df_boundary) !! "功率"
    = Some [CNum (round64 (315 # 10000))] /\
  @finite_in sample_runtime 0 1000 (CNum (round64 (1 # 10))) = true /\
  @finite_in sample_runtime 0 10000 (CNum (round64 (3 # 10))) = true /\
  @consistent sample_runtime (CNum (round64 (1 # 10))) (CNum (round64 (3 # 10)))
    (CNum (round64 (315 # 10000))) = true /\
  exists df',
    @validate_experiment_data sample_runtime df_boundary
      = Ok (df', (false, ["功率值与电流电压计算值偏差过大"])).
Proof.
  repeat (split; [vm_compute; reflexivity|]).
  eexists. vm_compute. reflexivity.
Qed.

Lemma validate_experiment_data_valid_witness :
  exists df', @validate_experiment_data sample_runtime df_english
              = Ok (df', (true, [])).
Proof.
  apply (@validate_experiment_data_valid sample_runtime df_english
           (nums [10; 20]%Z) (nums [100; 100]%Z) (nums [1000; 2050]%Z));
    [vm_compute; reflexivity | vm_compute; reflexivity
     | vm_compute; reflexivity | vm_compute; reflexivity
     | vm_compute; reflexivity | vm_compute; reflexivity |].
  intros k c v p Hc Hv Hp. destruct k as [|[|k]];
    vm_compute in Hc, Hv, Hp; try discriminate Hc;
    injection Hc as <-; injection Hv as <-; injection Hp as <-;
    vm_compute; reflexivity.
Defined.

(** ** Validating twice *)

Lemma rename_first_alias_columns (cn : string) (alts : list string)
    (df : DataFrame) (k : string) (c : list cell) :
  columns (rename_first_alias cn alts df) !! k = Some c ->
  exists k', columns df !! k' = Some c.
Proof.
  destruct (rename_first_alias_cases cn alts df)
    as [[-> _]|(a & Ha & Hha & Hc & ->)]; [eauto|].
  unfold rename_column.
  destruct (columns df !! a) as [ca|] eqn:E; [|eauto]. simpl.
  destruct (decide (k = cn)) as [->|Hk].
  - rewrite lookup_insert_eq. intros [= <-]. eauto.
  - rewrite lookup_insert_ne by done.
    destruct (decide (k = a)) as [->|Hk'].
    + by rewrite lookup_delete_eq.
    + rewrite lookup_delete_ne by done. eauto.
Qed.

Lemma bool_free_normalize (df : DataFrame) :
  bool_free df -> bool_free (normalize_columns df).
Proof.
  intros Hb k c Hk. unfold normalize_columns, alt_columns in Hk. simpl in Hk.
  apply rename_first_alias_columns in Hk as [k1 Hk].
  apply rename_first_alias_columns in Hk as [k2 Hk].
  apply rename_first_alias_columns in Hk as [k3 Hk].
  exact (Hb k3 c Hk).
Qed.

Section IdempotentClaims.
Context `{Runtime}.

Lemma series_coerced_total (df : DataFrame) (col : string) :
  bool_free df -> col ∈ required_columns -> has_column df col = true ->
  exists s, series (coerced df) col = Ok s.
Proof.
  intros Hb Hr [c Hc]%has_column_true.
  exists (map cell_value c). apply series_coerced; try done.
  exact (Hb col c Hc).
Qed.

Lemma check_range_total (df : DataFrame) (col : string) (hi : Q)
    (m1 m2 : string) (errs : list string) :
  bool_free df -> col ∈ required_columns ->
  exists errs', check_range (coerced df) col hi m1 m2 errs = Ok errs'.
Proof.
  intros Hb Hr. unfold check_range. rewrite has_column_coerced.
  destruct (has_column df col) eqn:E; [|by eexists].
  destruct (series_coerced_total df col Hb Hr E) as [s ->].
  rewrite result_bind_Ok. by eexists.
Qed.

Lemma check_power_total (df : DataFrame) (errs : list string) :
  bool_free df -> exists errs', check_power (coerced df) errs = Ok errs'.
Proof.
  intros Hb. unfold check_power. cbn [forallb]. rewrite !has_column_coerced.
  destruct (has_column df "电流") eqn:Ei; [|by eexists].
  destruct (has_column df "电压") eqn:Ev; [|by eexists].
  destruct (has_column df "功率") eqn:Ep; [|by eexists].
  cbn [andb].
  destruct (series_coerced_total df "电流" Hb) as [i ->];
    [by_computation | done |].
  destruct (series_coerced_total df "电压" Hb) as [v ->];
    [by_computation | done |].
  destruct (series_coerced_total df "功率" Hb) as [p ->];
    [by_computation | done |].
  rewrite !result_bind_Ok. cbv zeta.
  match goal with |- context [if ?b then _ else _] => destruct b end;
    by eexists.
Qed.

Lemma checks_total (df : DataFrame) (errs : list string) :
  bool_free df -> exists r, checks (coerced df) errs = Ok (coerced df, r).
Proof.
  intros Hb. unfold checks.
  destruct (check_range_total df "电流" 1000 "电流值不能为负数"
              "电流值超出合理范围 (>1000A)" errs Hb) as [e1 ->];
    [by_computation|].
  rewrite result_bind_Ok.
  destruct (check_range_total df "电压" 10000 "电压值不能为负数"
              "电压值超出合理范围 (>10000V)" e1 Hb) as [e2 ->];
    [by_computation|].
  rewrite result_bind_Ok.
  destruct (check_power_total df e2 Hb) as [e3 ->].
  rewrite result_bind_Ok. by eexists.
Qed.

(** C9: validating the table that a first validation has left gives the
    same flag and the same errors, and leaves that table as it is; and the
    first validation does return for every table without boolean cells. *)
Theorem validate_experiment_data_idempotent (df : DataFrame) :
  (forall df' valid errors,
     validate_experiment_data df = Ok (df', (valid, errors)) ->
     validate_experiment_data df' = Ok (df', (valid, errors))) /\
  (bool_free df ->
   exists df' valid errors,
     validate_experiment_data df = Ok (df', (valid, errors))).
Proof.
  split.
  - intros df' valid errors Hv.
    rewrite validate_experiment_data_stages in Hv.
    pose proof (checks_table _ _ _ _ Hv) as ->.
    rewrite validate_experiment_data_stages.
    set (df1 := normalize_columns df) in *.
    assert (normalize_columns (coerced df1) = coerced df1) as ->.
    { apply normalized_id.
      apply (normalized_same_names df1); [apply has_column_coerced|].
      apply normalize_columns_normalized. }
    rewrite coerced_idempotent.
    assert (missing_err (coerced df1) = missing_err df1) as ->.
    { unfold missing_err.
      by rewrite (missing_columns_same_names df1 (coerced df1)
                    (has_column_coerced df1)). }
    assert (type_errors (coerced df1) = type_errors df1) as ->.
    { unfold type_errors. by rewrite !coerce_err_coerced by by_computation. }
    exact Hv.
  - intros Hb. rewrite validate_experiment_data_stages.
    destruct (checks_total (normalize_columns df)
                (missing_err (normalize_columns df)
                   ++ type_errors (normalize_columns df))
                (bool_free_normalize df Hb)) as [[valid errors] Hr].
    eauto.
Qed.

End IdempotentClaims.

Lemma df_messy_bool_free : bool_free df_messy.
Proof. by_computation. Qed.

Lemma validate_experiment_data_idempotent_witness :
  bool_free df_messy /\
  exists df' valid errors,
    @validate_experiment_data sample_runtime df_messy
      = Ok (df', (valid, errors)) /\
    @validate_experiment_data sample_runtime df' = Ok (df', (valid, errors)).
Proof.
  split; [exact df_messy_bool_free|].
  destruct (@validate_experiment_data_idempotent sample_runtime df_messy)
    as [Hidem Htotal].
  destruct (Htotal df_messy_bool_free) as (df' & valid & errors & Hv).
  exists df', valid, errors. split; [exact Hv | exact (Hidem _ _ _ Hv)].
Defined.

(** ** What the operations change *)

Lemma set_column_other (name : string) (c : list cell) (df : DataFrame)
    (k : string) :
  k <> name -> columns (set_column name c df) !! k = columns df !! k.
Proof. intros Hk. unfold set_column. simpl. by rewrite lookup_insert_ne. Qed.

Section FrameClaims.
Context `{Runtime}.

Lemma detect_anomalies_frame (df out : DataFrame) (column method : string) :
  detect_anomalies df column method = Ok out ->
  index out = index df /\
  forall k, k <> "异常" -> columns out !! k = columns df !! k.
Proof.
  unfold detect_anomalies. intros Hd.
  destruct (String.eqb method "iqr").
  { inv_bind Hd. injection Hd as <-. split; [done|].
    intros k Hk. by apply set_column_other. }
  destruct (String.eqb method "zscore").
  { inv_bind Hd. injection Hd as <-. split; [done|].
    intros k Hk. by apply set_column_other. }
  injection Hd as <-. done.
Qed.

Lemma filter_data_frame (df out : DataFrame) (column method : string)
    (window_size : Z) :
  filter_data df column method window_size = Ok out ->
  index out = index df /\
  forall k, k <> filtered_name column -> columns out !! k = columns df !! k.
Proof.
  unfold filter_data. intros Hf. inv_bind Hf.
  assert (index a = index df /\
          forall k, k <> filtered_name column ->
                    columns a !! k = columns df !! k) as [Hi Hk].
  { destruct (String.eqb method "moving_average").
    { inv_bind Ha. injection Ha as <-. split; [done|].
      intros k Hk. by apply set_column_other. }
    destruct (String.eqb method "exponential").
    { inv_bind Ha. injection Ha as <-. split; [done|].
      intros k Hk. by apply set_column_other. }
    destruct (String.eqb method "median").
    { inv_bind Ha. injection Ha as <-. split; [done|].
      intros k Hk. by apply set_column_other. }
    injection Ha as <-. done. }
  destruct (columns a !! filtered_name column) as [f|]; [|discriminate].
  destruct (columns a !! column) as [raw|]; [|discriminate].
  injection Hf as <-. split; [done|].
  intros k Hne. rewrite set_column_other by done. auto.
Qed.

(** C4 (amended): [detect_anomalies] and [filter_data] work on a copy and
    return the table of the argument with its index and with every column
    but the derived one (异常, <column>_filtered) as it was.
    [validate_experiment_data] changes its argument in place: the index and
    the columns that are neither a required name nor an alias stay, an alias
    column is renamed to its canonical name, and each required column that
    is present is replaced by its numeric coercion. *)
Theorem operations_frame (df : DataFrame) :
  (forall df' r, validate_experiment_data df = Ok (df', r) ->
     index df' = index df /\
     (forall k, k ∉ required_columns -> k ∉ alias_names ->
        columns df' !! k = columns df !! k) /\
     (forall k, k ∈ required_columns ->
        columns df' !! k = to_numeric <$> columns (normalize_columns df) !! k))
  /\ (forall column method out,
        detect_anomalies df column method = Ok out ->
        index out = index df /\
        forall k, k <> "异常" -> columns out !! k = columns df !! k)
  /\ (forall column method window_size out,
        filter_data df column method window_size = Ok out ->
        index out = index df /\
        forall k, k <> filtered_name column ->
          columns out !! k = columns df !! k).
Proof.
  split; [|split].
  - intros df' r Hv. rewrite validate_experiment_data_stages in Hv.
    pose proof (checks_table _ _ _ _ Hv) as ->.
    split; [by rewrite coerced_index, normalize_columns_index|].
    split.
    + intros k Hr Ha. rewrite coerced_lookup.
      rewrite bool_decide_eq_false_2 by done.
      by apply normalize_columns_other.
    + intros k Hr. rewrite coerced_lookup.
      by rewrite bool_decide_eq_true_2.
  - intros column method out. apply detect_anomalies_frame.
  - intros column method window_size out. apply filter_data_frame.
Qed.

End FrameClaims.

(** The validation renames the alias column of its argument and replaces
    the text by NaN. *)
Lemma validate_experiment_data_in_place_counterexample :
  exists df' r,
    @validate_experiment_data sample_runtime df_messy = Ok (df', r) /\
    columns df_messy !! "I" = Some [num 5; CStr "abc"] /\
    columns df' !! "I" = None /\
    columns df' !! "电流" = Some [num 5; CNum NaN].
Proof.
  do 2 eexists. split; [vm_compute; reflexivity|].
  split; [vm_compute; reflexivity|]. split; vm_compute; reflexivity.
Qed.

Lemma operations_frame_witness :
  (exists df' r,
     @validate_experiment_data sample_runtime df_messy = Ok (df', r) /\
     columns df' !! "note" = Some [CStr "a"; CStr "b"]) /\
  (exists out,
     @detect_anomalies sample_runtime df_five "x" "zscore" = Ok out /\
     columns out !! "x" = Some (nums [1; 2; 3; 4; 5]%Z)) /\
  (exists out,
     filter_data df_five "x" "moving_average" 3 = Ok out /\
     columns out !! "x" = Some (nums [1; 2; 3; 4; 5]%Z)).
Proof.
  split; [|split].
  - destruct (@validate_experiment_data sample_runtime df_messy)
      as [[df' r]|e] eqn:E; [|vm_compute in E; discriminate E].
    exists df', r. split; [reflexivity|].
    destruct (@operations_frame sample_runtime df_messy) as [Hv _].
    destruct (Hv df' r E) as (_ & Hother & _).
    rewrite Hother; [vm_compute; reflexivity | by_computation..].
  - destruct (@detect_anomalies sample_runtime df_five "x" "zscore")
      as [out|e] eqn:E; [|vm_compute in E; discriminate E].
    exists out. split; [reflexivity|].
    destruct (@operations_frame sample_runtime df_five) as (_ & Hd & _).
    destruct (Hd "x" "zscore" out E) as [_ Hk].
    rewrite Hk; [vm_compute; reflexivity | discriminate].
  - destruct (filter_data df_five "x" "moving_average" 3)
      as [out|e] eqn:E; [|vm_compute in E; discriminate E].
    exists out. split; [reflexivity|].
    destruct (@operations_frame sample_runtime df_five) as (_ & _ & Hf).
    destruct (Hf "x" "moving_average" 3%Z out E) as [_ Hk].
    rewrite Hk; [vm_compute; reflexivity | discriminate].
Defined.

(** ** Filters *)

Lemma filtered_name_differs (column : string) : column <> filtered_name column.
Proof.
  unfold filtered_name. induction column as [|a s IH]; simpl.
  - discriminate.
  - intros [= Hs]. by apply IH.
Qed.

Lemma numeric_inv (col : list cell) (s : list fl) :
  numeric col = Ok s -> col = map CNum s.
Proof.
  unfold numeric. revert s. induction col as [|c col IH]; intros s Hs.
  - by injection Hs as <-.
  - cbn [mapM] in Hs. inv_bind Hs. inv_bind Hs. injection Hs as <-.
    destruct c; try discriminate. injection Ha as <-.
    simpl. f_equal. by apply IH.
Qed.

Lemma fillna_lookup (f raw : list cell) (i : nat) :
  length f = length raw ->
  fillna f raw !! i =
    c ← f !! i; r ← raw !! i; Some (if isna c then r else c).
Proof.
  revert raw i. induction f as [|c f IH]; intros [|r raw] i Hlen;
    try discriminate; [done|].
  destruct i as [|i]; simpl; [done|]. apply IH. simpl in Hlen. lia.
Qed.

Lemma fillna_length (f raw : list cell) : length (fillna f raw) = length f.
Proof.
  revert raw. induction f as [|c f IH]; intros [|r raw]; simpl; auto.
Qed.

Lemma rolling_length (agg : list fl -> fl) (w : Z) (s : list fl) :
  length (rolling agg w s) = length s.
Proof. unfold rolling. by rewrite length_map, length_seq. Qed.

Lemma rolling_lookup (agg : list fl -> fl) (w : Z) (s : list fl) (i : nat) :
  (i < length s)%nat ->
  rolling agg w s !! i =
    Some (let obs := dropna (window_values s w i) in
          if (w <=? Z.of_nat (length obs))%Z && (0 <? length obs)%nat
          then agg obs else NaN).
Proof.
  intros Hi. unfold rolling. rewrite list_lookup_fmap.
  by rewrite lookup_seq_lt.
Qed.

Lemma dropna_length (s : list fl) : (length (dropna s) <= length s)%nat.
Proof. unfold dropna. apply length_filter. Qed.


Lemma window_values_short (s : list fl) (w : Z) (i : nat) :
  (1 <= w)%Z -> ~ window_fits (length s) w i ->
  (Z.of_nat (length (window_values s w i)) < w)%Z.
Proof.
  intros Hw Hfit. unfold window_fits in Hfit.
  unfold window_values, window_bounds.
  set (e := (Z.of_nat i + 1 + (w - 1) / 2)%Z) in *.
  rewrite length_take, length_drop. lia.
Qed.

(** Outside the positions where the window fits, the rolling value is
    NaN. *)
Lemma rolling_edge (agg : list fl -> fl) (w : Z) (s : list fl) (i : nat) :
  (1 <= w)%Z -> (i < length s)%nat -> ~ window_fits (length s) w i ->
  rolling agg w s !! i = Some NaN.
Proof.
  intros Hw Hi Hfit. rewrite rolling_lookup by done. cbv zeta.
  pose proof (window_values_short s w i Hw Hfit).
  pose proof (dropna_length (window_values s w i)).
  rewrite (proj2 (Z.leb_gt _ _)) by lia. done.
Qed.

(** A window larger than the Series fits nowhere. *)
Lemma window_larger_never_fits (n : nat) (w : Z) (i : nat) :
  (Z.of_nat n < w)%Z -> ~ window_fits n w i.
Proof. unfold window_fits. lia. Qed.

Lemma filter_data_ok (df : DataFrame) (column method : string) (w : Z)
    (col : list cell) (s : list fl) :
  columns df !! column = Some col -> numeric col = Ok s ->
  supported method -> (1 <= w)%Z ->
  exists out, filter_data df column method w = Ok out /\
    index out = index df /\
    columns out !! filtered_name column =
      Some (fillna (map CNum (filter_values method w s)) col).
Proof.
  intros Hcol Hs Hm Hw. unfold filter_data, windowed, filter_values.
  rewrite Hcol, Hs.
  rewrite (proj2 (Z.ltb_ge w 0)) by lia.
  rewrite (proj2 (Z.ltb_ge w 1)) by lia.
  pose proof (filtered_name_differs column) as Hne.
  destruct Hm as [-> | [-> | ->]]; cbn [String.eqb Ascii.eqb Bool.eqb];
    rewrite !result_bind_Ok; unfold set_column; cbn [columns index];
    rewrite lookup_insert_eq, lookup_insert_ne, Hcol by done;
    (eexists; split; [reflexivity|]); cbn [columns index];
    by rewrite lookup_insert_eq.
Qed.

Lemma filled_lookup (r s : list fl) (i : nat) (ri si : fl) :
  length r = length s -> r !! i = Some ri -> s !! i = Some si ->
  fillna (map CNum r) (map CNum s) !! i =
    Some (CNum (if is_nan ri then si else ri)).
Proof.
  intros Hlen Hr Hs. rewrite fillna_lookup by (by rewrite !length_map).
  rewrite !list_lookup_fmap, Hr, Hs. simpl. by destruct (is_nan ri).
Qed.


Lemma dropna_fin (qs : list Q) : dropna (map Fin qs) = map Fin qs.
Proof.
  unfold dropna. induction qs as [|q qs IH]; [done|].
  cbn [map]. rewrite filter_cons_True by done. by rewrite IH.
Qed.




(** ** The exponential filter *)

Lemma recurrence_lookup (alpha : Q) (ys qs : list Q) :
  forall prev, recurrence alpha prev ys qs ->
  forall i x y y', qs !! i = Some x -> (prev :: ys) !! i = Some y' ->
    ys !! i = Some y -> (y == alpha * x + (1 - alpha) * y')%Q.
Proof.
  revert qs. induction ys as [|y0 ys IH]; intros [|x0 qs] prev Hrec;
    simpl in Hrec; try contradiction.
  - intros i x y y' Hx. by rewrite lookup_nil in Hx.
  - destruct Hrec as [H0 Hrec]. intros [|i] x y y' Hx Hy' Hy; simpl in *.
    + injection Hx as <-. injection Hy' as <-. injection Hy as <-. exact H0.
    + exact (IH qs y0 Hrec i x y y' Hx Hy' Hy).
Qed.

Lemma ewm_loop_fin (alpha : Q) (qs : list Q) :
  forall (y : Q) (nobs : nat), (1 <= nobs)%nat ->
  exists ys, ewm_loop alpha (Fin y) 1 nobs (map Fin qs) = map Fin ys /\
    length ys = length qs /\ recurrence alpha y ys qs.
Proof.
  induction qs as [|q qs IH]; intros y nobs Hn.
  - exists []. done.
  - cbn [map ewm_loop is_nan negb feqb].
    assert ((1 <=? nobs + 1)%nat = true) as -> by (apply Nat.leb_le; lia).
    destruct (Qeq_bool y q) eqn:E.
    + apply Qeq_bool_iff in E.
      destruct (IH y (nobs + 1)%nat) as (ys & Hys & Hlen & Hrec); [lia|].
      exists (y :: ys). rewrite Hys. split; [done|].
      split; [simpl; congruence|]. split; [|done].
      rewrite <- E. ring.
    + assert (1 * (1 - alpha) + alpha == 1)%Q as Hd by ring.
      assert (Qeq_bool (1 * (1 - alpha) + alpha) 0 = false) as Hz.
      { destruct (Qeq_bool (1 * (1 - alpha) + alpha) 0) eqn:Ez; [|done].
        apply Qeq_bool_iff in Ez. rewrite Hd in Ez. discriminate. }
      cbn [fmul fadd fdiv]. rewrite Hz.
      set (y1 := ((1 * (1 - alpha) * y + alpha * q)
                  / (1 * (1 - alpha) + alpha))%Q).
      destruct (IH y1 (nobs + 1)%nat) as (ys & Hys & Hlen & Hrec); [lia|].
      exists (y1 :: ys). rewrite Hys. split; [done|].
      split; [simpl; congruence|]. split; [|done].
      unfold y1. rewrite Hd. field.
Qed.

Lemma ewm_mean_fin (w : Z) (q0 : Q) (qs : list Q) :
  exists ys, ewm_mean w (map Fin (q0 :: qs)) = map Fin (q0 :: ys) /\
    length ys = length qs /\
    recurrence (2 / (inject_Z w + 1)) q0 ys qs.
Proof.
  unfold ewm_mean. cbn [map is_nan].
  destruct (ewm_loop_fin (2 / (inject_Z w + 1)) qs q0 1) as (ys & -> & Hlen & Hrec);
    [lia|].
  exists ys. done.
Qed.

Lemma fillna_fin (ys : list Q) (raw : list cell) :
  fillna (map CNum (map Fin ys)) raw = map CNum (map Fin ys).
Proof.
  revert raw. induction ys as [|y ys IH]; intros [|r raw]; simpl; try done.
  by rewrite IH.
Qed.

(** C7 (amended): with method exponential and a window of at least 1 on a
    column of finite numbers (no NaN) the filtered column starts with the
    first raw value and then follows
    filtered[i] = a x[i] + (1 - a) filtered[i-1], a = 2 / (window + 1). *)
Theorem filter_data_exponential (df : DataFrame) (column : string) (w : Z)
    (col : list cell) (qs : list Q) :
  columns df !! column = Some col -> numeric col = Ok (map Fin qs) ->
  (1 <= w)%Z ->
  exists out ys,
    filter_data df column "exponential" w = Ok out /\
    columns out !! filtered_name column = Some (map CNum (map Fin ys)) /\
    length ys = length qs /\
    ys !! 0%nat = qs !! 0%nat /\
    forall i x y y', qs !! S i = Some x -> ys !! i = Some y' ->
      ys !! S i = Some y ->
      (y == 2 / (inject_Z w + 1) * x + (1 - 2 / (inject_Z w + 1)) * y')%Q.
Proof.
  intros Hcol Hs Hw.
  destruct (filter_data_ok df column "exponential" w col (map Fin qs))
    as (out & Hout & _ & Hf); [done | done | right; by left | done |].
  unfold filter_values in Hf. cbn [String.eqb Ascii.eqb Bool.eqb] in Hf.
  destruct qs as [|q0 qs].
  - exists out, []. simpl in Hf. pose proof (numeric_inv _ _ Hs) as ->.
    split; [done|]. split; [done|]. split; [done|]. split; [done|].
    intros i x y y' Hx. by rewrite lookup_nil in Hx.
  - destruct (ewm_mean_fin w q0 qs) as (ys & Hys & Hlen & Hrec).
    rewrite Hys, fillna_fin in Hf.
    exists out, (q0 :: ys). split; [done|]. split; [done|].
    split; [simpl; congruence|]. split; [done|].
    intros i x y y' Hx Hy' Hy. simpl in Hx, Hy.
    exact (recurrence_lookup _ _ _ _ Hrec i x y y' Hx Hy' Hy).
Qed.

(** After a gap the recurrence does not hold: the value before the gap is
    carried over it, and the value after it is weighted by more than a. *)
Lemma filter_data_exponential_gap_counterexample :
  exists out y0 y1 y2,
    filter_data df_gap "x" "exponential" 3 = Ok out /\
    columns out !! "x_filtered"
      = Some [CNum (Fin y0); CNum (Fin y1); CNum (Fin y2)] /\
    (y0 == 1)%Q /\ (y1 == 1)%Q /\ (y2 == 7 # 3)%Q /\
    ~ (y2 == 2 / (inject_Z 3 + 1) * 3 + (1 - 2 / (inject_Z 3 + 1)) * y1)%Q.
Proof.
  eexists _, _, _, _. split; [vm_compute; reflexivity|].
  split; [vm_compute; reflexivity|].
  repeat split; try reflexivity. vm_compute. discriminate.
Qed.

Lemma filter_data_exponential_witness :
  exists out ys,
    filter_data df_five "x" "exponential" 3 = Ok out /\
    columns out !! "x_filtered" = Some (map CNum (map Fin ys)) /\
    length ys = 5%nat.
Proof.
  destruct (filter_data_exponential df_five "x" 3 (nums [1; 2; 3; 4; 5]%Z)
              (map inject_Z [1; 2; 3; 4; 5]%Z))
    as (out & ys & Hout & Hf & Hlen & _);
    [vm_compute; reflexivity | vm_compute; reflexivity | lia |].
  exists out, ys. split; [exact Hout|]. split; [exact Hf | exact Hlen].
Defined.

(** ** Windows larger than the table *)

Lemma rolling_large_window_filled (agg : list fl -> fl) (w : Z) (s : list fl) :
  (Z.of_nat (length s) < w)%Z ->
  fillna (map CNum (rolling agg w s)) (map CNum s) = map CNum s.
Proof.
  intros Hw. apply list_eq. intros i.
  destruct (s !! i) as [x|] eqn:E.
  - pose proof (lookup_lt_Some _ _ _ E) as Hi.
    rewrite (filled_lookup _ _ i NaN x (rolling_length _ _ _)); try done.
    + by rewrite list_lookup_fmap, E.
    + apply rolling_edge; [lia | done |].
      by apply window_larger_never_fits.
  - pose proof (proj1 (lookup_ge_None _ _) E) as Hi.
    rewrite list_lookup_fmap, E. simpl.
    apply lookup_ge_None.
    rewrite fillna_length, length_map, rolling_length. done.
Qed.

Lemma ewm_loop_length (alpha : Q) (vals : list fl) :
  forall weighted old_wt nobs,
    length (ewm_loop alpha weighted old_wt nobs vals) = length vals.
Proof.
  induction vals as [|cur rest IH]; intros weighted old_wt nobs; [done|].
  cbn [ewm_loop].
  destruct (if negb (is_nan weighted) then _ else _) as [w' o'].
  simpl. by rewrite IH.
Qed.

Lemma ewm_mean_length (w : Z) (s : list fl) :
  length (ewm_mean w s) = length s.
Proof.
  unfold ewm_mean. destruct s as [|x rest]; [done|].
  simpl. by rewrite ewm_loop_length.
Qed.

(** C8: for a window larger than the number of rows (and so at least 1),
    and one of the three methods on a numeric column, [filter_data] returns:
    the filtered column has a value for every row; for the rolling methods
    it is the raw column; for a column of finite numbers every filtered
    value is a finite number. *)
Theorem filter_data_large_window (df : DataFrame) (column method : string)
    (w : Z) (col : list cell) (s : list fl) :
  columns df !! column = Some col -> numeric col = Ok s ->
  supported method -> (Z.of_nat (length s) < w)%Z ->
  exists out f,
    filter_data df column method w = Ok out /\
    index out = index df /\
    columns out !! filtered_name column = Some f /\
    length f = length col /\
    (method <> "exponential" -> f = col) /\
    (forall qs, s = map Fin qs -> exists ys, f = map CNum (map Fin ys)).
Proof.
  intros Hcol Hs Hm Hw.
  destruct (filter_data_ok df column method w col s)
    as (out & Hout & Hidx & Hf); [done | done | done | lia |].
  pose proof (numeric_inv _ _ Hs) as ->.
  exists out, (fillna (map CNum (filter_values method w s)) (map CNum s)).
  split; [done|]. split; [done|]. split; [done|].
  unfold filter_values.
  destruct Hm as [-> | [-> | ->]]; cbn [String.eqb Ascii.eqb Bool.eqb].
  - rewrite rolling_large_window_filled by done.
    split; [done|]. split; [done|]. intros qs ->. by exists qs.
  - split; [by rewrite fillna_length, !length_map, ewm_mean_length|].
    split; [done|]. intros qs ->.
    destruct qs as [|q0 qs]; [by exists []|].
    destruct (ewm_mean_fin w q0 qs) as (ys & -> & _ & _).
    exists (q0 :: ys). apply fillna_fin.
  - rewrite rolling_large_window_filled by done.
    split; [done|]. split; [done|]. intros qs ->. by exists qs.
Qed.

Lemma filter_data_large_window_witness :
  exists out,
    filter_data df_five "x" "median" 9 = Ok out /\
    columns out !! "x_filtered" = Some (nums [1; 2; 3; 4; 5]%Z).
Proof.
  destruct (filter_data_large_window df_five "x" "median" 9
              (nums [1; 2; 3; 4; 5]%Z) (map of_Z [1; 2; 3; 4; 5]%Z))
    as (out & f & Hout & _ & Hf & _ & Hraw & _);
    [vm_compute; reflexivity | vm_compute; reflexivity
     | right; right; reflexivity | simpl; lia |].
  exists out. split; [exact Hout|].
  change (filtered_name "x") with "x_filtered" in Hf.
  rewrite Hf, Hraw; [reflexivity|discriminate].
Defined.

(** ** Z-scores of a column without spread *)

Lemma rounded_not_fin (x : fl) : is_fin x = false -> is_fin (rounded x) = false.
Proof. by destruct x. Qed.

Lemma fadd_fin_inv (x y : fl) :
  is_fin (fadd x y) = true -> is_fin x = true /\ is_fin y = true.
Proof. by destruct x, y. Qed.

Lemma fmul_fin_inv (x : fl) : is_fin (fmul x x) = true -> is_fin x = true.
Proof. by destruct x. Qed.

Lemma rounded_fin_inv (x : fl) : is_fin (rounded x) = true -> is_fin x = true.
Proof.
  intros Hr. destruct (is_fin x) eqn:E; [done|].
  by rewrite (rounded_not_fin x E) in Hr.
Qed.

Section ZScoreClaims.
Context `{Runtime}.

(** A standard deviation that is a finite number comes from finite
    numbers, and their mean is a finite number. *)
Lemma series_std_fin (s : list fl) (z : Q) :
  series_std s = Fin z ->
  exists m, series_mean s = Fin m /\
    Forall (fun x => is_fin x = true) (dropna s).
Proof.
  unfold series_std, series_mean. cbv zeta.
  set (v := dropna s).
  destruct (length v <=? 1)%nat eqn:En; [discriminate|].
  apply Nat.leb_gt in En. intros Hstd.
  set (avg := fdiv64 (float_sum v) (of_nat (length v))) in *.
  set (sqr := map (fun x => fmul64 (fsub64 avg x) (fsub64 avg x)) v) in *.
  assert (is_fin (float_sum sqr) = true) as Hsum.
  { destruct (float_sum sqr) as [u| | |] eqn:Eu; [done| | |].
    - unfold fdiv64, of_nat, of_Z in Hstd. simpl in Hstd.
      destruct (Qle_bool 0 (inject_Z (Z.of_nat (length v - 1))));
        simpl in Hstd; discriminate.
    - unfold fdiv64, of_nat, of_Z in Hstd. simpl in Hstd.
      destruct (Qle_bool 0 (inject_Z (Z.of_nat (length v - 1))));
        simpl in Hstd; discriminate.
    - discriminate. }
  apply float_sum_fin in Hsum as Hall.
  assert (forall x, x ∈ v -> is_fin avg = true /\ is_fin x = true) as Hx.
  { intros x Hin. rewrite Forall_forall in Hall.
    assert (is_fin (fmul64 (fsub64 avg x) (fsub64 avg x)) = true) as Hq.
    { apply Hall. unfold sqr. apply list_elem_of_fmap. by exists x. }
    apply rounded_fin_inv, fmul_fin_inv, rounded_fin_inv in Hq.
    unfold fsub in Hq. apply fadd_fin_inv in Hq as [Ha Hn].
    split; [done|]. by destruct x. }
  destruct v as [|x0 v'] eqn:Ev; [simpl in En; lia|].
  destruct (Hx x0) as [Ha _]; [by left|].
  destruct avg as [m| | |] eqn:Em; try discriminate.
  exists m. split; [done|].
  apply Forall_forall. intros x Hin. by apply Hx.
Qed.

End ZScoreClaims.

Section ZScoreTheorem.
Context `{Runtime}.

(** The flag of a value for a standard deviation of 0: the score is an
    infinity when the value differs from the mean, and NaN when it does
    not. *)
Lemma zscore_flag_zero_std (x : fl) (m z : Q) :
  (z == 0)%Q -> is_nan x = true \/ is_fin x = true ->
  fgt (fabs (fdiv (fsub x (Fin m)) (Fin z))) (Fin 3)
    = negb (is_nan x) && negb (feqb x (Fin m)).
Proof.
  intros Hz [Hx|Hx]; destruct x as [q| | |]; try discriminate; [reflexivity|].
  assert (Qeq_bool z 0 = true) as Ez by (by apply Qeq_bool_iff).
  cbn [fsub fneg fadd fdiv is_nan negb andb feqb]. rewrite Ez.
  unfold inf_of_sign, Qsgn_cmp.
  destruct (0 ?= q + - m)%Q eqn:Ec.
  - apply Qeq_alt in Ec.
    assert (Qeq_bool q m = true) as -> by (apply Qeq_bool_iff; lra).
    reflexivity.
  - apply Qlt_alt in Ec.
    assert (Qeq_bool q m = false) as ->.
    { destruct (Qeq_bool q m) eqn:E; [|done]. apply Qeq_bool_iff in E. lra. }
    reflexivity.
  - apply Qgt_alt in Ec.
    assert (Qeq_bool q m = false) as ->.
    { destruct (Qeq_bool q m) eqn:E; [|done]. apply Qeq_bool_iff in E. lra. }
    reflexivity.
Qed.

(** C5 (amended): with method zscore on a numeric column whose standard
    deviation is 0, [detect_anomalies] returns, and it flags the rows whose
    value is a number different from the mean of the column, and no other
    row; so it flags no row when every value that is not NaN equals the
    mean. *)
Theorem detect_anomalies_zscore_zero_std (df : DataFrame) (column : string)
    (col : list cell) (s : list fl) :
  columns df !! column = Some col -> numeric col = Ok s ->
  feq (series_std s) (Fin 0) ->
  exists out,
    detect_anomalies df column "zscore" = Ok out /\
    index out = index df /\
    columns out !! "异常"
      = Some (map (fun x => CBool (negb (is_nan x)
                                   && negb (feqb x (series_mean s)))) s) /\
    (Forall (fun x => is_nan x = true \/ feq x (series_mean s)) s ->
     columns out !! "异常" = Some (map (fun _ => CBool false) s)).
Proof.
  intros Hcol Hs Hstd.
  destruct (series_std s) as [z| | |] eqn:Ez; simpl in Hstd; try contradiction.
  destruct (series_std_fin s z Ez) as (m & Hm & Hall).
  unfold detect_anomalies, series. cbn [String.eqb Ascii.eqb Bool.eqb].
  rewrite Hcol, Hs, result_bind_Ok. cbv zeta. rewrite Ez, Hm.
  eexists. split; [reflexivity|]. split; [done|].
  unfold set_column. cbn [columns]. rewrite lookup_insert_eq.
  assert (forall x, x ∈ s ->
            fgt (fabs (fdiv (fsub x (Fin m)) (Fin z))) (Fin 3)
              = negb (is_nan x) && negb (feqb x (Fin m))) as Hflag.
  { intros x Hx. apply zscore_flag_zero_std; [done|].
    destruct (is_nan x) eqn:En; [by left|]. right.
    rewrite Forall_forall in Hall. apply Hall.
    unfold dropna. by apply list_elem_of_filter. }
  split.
  - f_equal. rewrite map_map. apply map_ext_in. intros x Hx. f_equal.
    apply Hflag. by apply list_elem_of_In.
  - intros Heq. f_equal. rewrite map_map. apply map_ext_in. intros x Hx.
    f_equal. apply list_elem_of_In in Hx. rewrite (Hflag x Hx).
    rewrite Forall_forall in Heq. destruct (Heq x Hx) as [Hn|Hf].
    + by rewrite Hn.
    + destruct x as [q| | |]; simpl in Hf; try contradiction.
      simpl. apply Qeq_bool_iff in Hf. by rewrite Hf.
Qed.

End ZScoreTheorem.

(** Three identical values whose float64 mean is not that value: the
    squares of the deviations underflow, the standard deviation is 0, and
    every row is flagged. *)
Lemma detect_anomalies_zscore_underflow_counterexample :
  @series_std sample_runtime [tiny; tiny; tiny] = Fin 0 /\
  exists out,
    @detect_anomalies sample_runtime df_tiny "x" "zscore" = Ok out /\
    columns out !! "异常" = Some [CBool true; CBool true; CBool true].
Proof.
  split; [vm_compute; reflexivity|].
  eexists. split; vm_compute; reflexivity.
Qed.

Lemma detect_anomalies_zscore_zero_std_witness :
  feq (@series_std sample_runtime [of_Z 5; of_Z 5; NaN; of_Z 5]) (Fin 0) /\
  exists out,
    @detect_anomalies sample_runtime df_flat "x" "zscore" = Ok out /\
    columns out !! "异常"
      = Some [CBool false; CBool false; CBool false; CBool false].
Proof.
  assert (feq (@series_std sample_runtime [of_Z 5; of_Z 5; NaN; of_Z 5]) (Fin 0))
    as Hstd by (by vm_compute).
  split; [exact Hstd|].
  destruct (@detect_anomalies_zscore_zero_std sample_runtime df_flat "x"
              [num 5; num 5; CNum NaN; num 5] [of_Z 5; of_Z 5; NaN; of_Z 5])
    as (out & Hout & _ & _ & Hflags);
    [vm_compute; reflexivity | vm_compute; reflexivity | exact Hstd |].
  exists out. split; [exact Hout|]. apply Hflags.
  assert (series_mean [of_Z 5; of_Z 5; NaN; of_Z 5] = Fin 5) as ->
    by (vm_compute; reflexivity).
  apply Forall_cons_2; [right; reflexivity|].
  apply Forall_cons_2; [right; reflexivity|].
  apply Forall_cons_2; [left; reflexivity|].
  apply Forall_cons_2; [right; reflexivity|].
  apply Forall_nil_2.
Defined.
(** * Further properties of the validation *)

Section ValidationErrors.
Context `{Runtime}.

Lemma Ok_triple_inv {A B C} (a a' : A) (b b' : B) (c c' : C) :
  Ok (a, (b, c)) = Ok (a', (b', c')) -> a = a' /\ b = b' /\ c = c'.
Proof. intros E. by inversion E. Qed.

Lemma check_range_inv (df : DataFrame) (col : string) (hi : Q)
    (m1 m2 : string) (errs errs' : list string) :
  check_range df col hi m1 m2 errs = Ok errs' ->
  errs' = errs ++ range_part df col hi m1 m2 /\
  (has_column df col = true -> exists s, series df col = Ok s).
Proof.
  unfold check_range, range_part, range_errors.
  destruct (has_column df col).
  - destruct (series df col) as [s|e]; [|discriminate].
    rewrite result_bind_Ok. cbv zeta.
    destruct (any (map (fun x => flt x (Fin 0)) s)),
             (any (map (fun x => fgt x (Fin hi)) s));
      intros [= <-]; (split; [|eauto]);
      by rewrite <- ?app_assoc, ?app_nil_r.
  - intros [= <-]. split; [by rewrite app_nil_r | discriminate].
Qed.

Lemma check_power_inv (df : DataFrame) (errs errs' : list string) :
  check_power df errs = Ok errs' ->
  errs' = errs ++ power_part df /\
  (forallb (has_column df) ["电流"; "电压"; "功率"] = true ->
   exists i v p, series df "电流" = Ok i /\ series df "电压" = Ok v /\
                 series df "功率" = Ok p).
Proof.
  unfold check_power, power_part, power_flags.
  destruct (forallb (has_column df) ["电流"; "电压"; "功率"]).
  - destruct (series df "电流") as [i|e]; [|discriminate].
    destruct (series df "电压") as [v|e]; [|discriminate].
    destruct (series df "功率") as [p|e]; [|discriminate].
    rewrite !result_bind_Ok. cbv zeta.
    match goal with |- context [if ?b then _ else _] => destruct b end;
      intros [= <-]; (split; [by rewrite ?app_nil_r | eauto 10]).
  - intros [= <-]. split; [by rewrite app_nil_r | discriminate].
Qed.

(** The anatomy of a validation that returns: the table it leaves, the
    flag, and the errors in the order in which the checks append them. *)
Lemma validate_experiment_data_inv (df df' : DataFrame) (valid : bool)
    (errors : list string) :
  validate_experiment_data df = Ok (df', (valid, errors)) ->
  let df1 := normalize_columns df in
  df' = coerced df1 /\ valid = bool_decide (errors = []) /\
  errors = missing_err df1 ++ type_errors df1
           ++ range_part df' "电流" 1000
                "电流值不能为负数" "电流值超出合理范围 (>1000A)"
           ++ range_part df' "电压" 10000
                "电压值不能为负数" "电压值超出合理范围 (>10000V)"
           ++ power_part df' /\
  (forall col, col = "电流" \/ col = "电压" ->
     has_column df' col = true -> exists s, series df' col = Ok s) /\
  (forallb (has_column df') ["电流"; "电压"; "功率"] = true ->
   exists i v p, series df' "电流" = Ok i /\ series df' "电压" = Ok v /\
                 series df' "功率" = Ok p).
Proof.
  intros Hv. cbv zeta. rewrite validate_experiment_data_stages in Hv.
  pose proof (checks_table _ _ _ _ Hv) as ->.
  unfold checks in Hv.
  inv_bind Hv. inv_bind Hv. inv_bind Hv.
  apply check_range_inv in Ha as [-> Hs1].
  apply check_range_inv in Ha0 as [-> Hs2].
  apply check_power_inv in Ha1 as [-> Hs3].
  apply Ok_triple_inv in Hv as (_ & Hval & Herr).
  split; [reflexivity|]. split; [by rewrite <- Hval, <- Herr|].
  split; [by rewrite <- Herr, <- !app_assoc|].
  split; [|exact Hs3]. intros col [->| ->]; assumption.
Qed.

End ValidationErrors.

(** ** What a validation that says valid guarantees *)

Lemma any_true_elem (bs : list bool) : any bs = true <-> true ∈ bs.
Proof.
  unfold any. rewrite existsb_exists. split.
  - intros (b & Hin & Hb). unfold id in Hb. subst. by apply list_elem_of_In.
  - intros Hin. exists true. split; [by apply list_elem_of_In | done].
Qed.

Lemma any_false_elem (bs : list bool) (b : bool) :
  any bs = false -> b ∈ bs -> b = false.
Proof.
  intros Hany Hb. destruct b; [|done].
  apply any_true_elem in Hb. congruence.
Qed.

Lemma app_nil_inv {A} (l1 l2 : list A) : l1 ++ l2 = [] -> l1 = [] /\ l2 = [].
Proof. destruct l1; [done | discriminate]. Qed.

Lemma number_in_range (x : fl) (hi : Q) :
  is_nan x = false -> flt x (Fin 0) = false -> fgt x (Fin hi) = false ->
  exists q, x = Fin q /\ (0 <= q <= hi)%Q.
Proof.
  destruct x as [q| | |]; simpl; try discriminate.
  unfold fgt, flt, Qlt_bool. intros _ Hlo Hhi.
  apply negb_false_iff, Qle_bool_iff in Hlo.
  apply negb_false_iff, Qle_bool_iff in Hhi. eauto.
Qed.

Lemma all_finite (P : Q -> Prop) (s : list fl) :
  (forall x, x ∈ s -> exists q, x = Fin q /\ P q) ->
  exists qs, s = map Fin qs /\ Forall P qs.
Proof.
  induction s as [|x s IH]; intros Hs.
  - exists []. split; [done | constructor].
  - destruct (Hs x) as (q & -> & Hq); [left|].
    destruct IH as (qs & -> & Hqs); [intros y Hy; apply Hs; by right|].
    exists (q :: qs). split; [done | by constructor].
Qed.

Section ValidationSound.
Context `{Runtime}.

Lemma missing_err_nil (df : DataFrame) (col : string) :
  missing_err df = [] -> col ∈ required_columns -> has_column df col = true.
Proof.
  unfold missing_err. intros Hm Hcol.
  destruct (missing_columns df) as [|m ms] eqn:E; [|discriminate].
  destruct (has_column df col) eqn:Ec; [done|].
  assert (col ∈ missing_columns df) as Hin
    by (unfold missing_columns; apply list_elem_of_filter; done).
  rewrite E in Hin. by apply elem_of_nil in Hin.
Qed.

Lemma coerce_err_nil (df : DataFrame) (col : string) (c : list cell) :
  coerce_err col df = [] -> columns df !! col = Some c ->
  any (map isna (to_numeric c)) = false.
Proof.
  unfold coerce_err. intros He Hc. rewrite Hc in He.
  by destruct (any (map isna (to_numeric c))).
Qed.

Lemma range_errors_nil (s : list fl) (hi : Q) (m1 m2 : string) :
  range_errors s hi m1 m2 = [] ->
  any (map (fun x => flt x (Fin 0)) s) = false /\
  any (map (fun x => fgt x (Fin hi)) s) = false.
Proof.
  unfold range_errors.
  destruct (any (map (fun x => flt x (Fin 0)) s)); [discriminate|].
  destruct (any (map (fun x => fgt x (Fin hi)) s)); [discriminate|]. done.
Qed.

(** The Series of a required column of a validated table: its cells are the
    coercion of the column after the renaming. *)
Lemma series_coerced_inv (df : DataFrame) (col : string) (s : list fl) :
  col ∈ required_columns -> series (coerced df) col = Ok s ->
  exists c, columns df !! col = Some c /\ to_numeric c = map CNum s /\
            columns (coerced df) !! col = Some (map CNum s).
Proof.
  intros Hr. unfold series. rewrite coerced_lookup.
  rewrite bool_decide_eq_true_2 by done.
  destruct (columns df !! col) as [c|]; simpl; [|discriminate].
  intros Hs. apply numeric_inv in Hs. rewrite Hs. eauto.
Qed.

Lemma no_na_values (s : list fl) (x : fl) :
  any (map isna (map CNum s)) = false -> x ∈ s -> is_nan x = false.
Proof.
  intros Hany Hx. apply (any_false_elem _ _ Hany).
  rewrite map_map. apply list_elem_of_fmap. exists x. done.
Qed.

Lemma in_range_values (s : list fl) (hi : Q) (m1 m2 : string) :
  any (map isna (map CNum s)) = false -> range_errors s hi m1 m2 = [] ->
  exists qs, s = map Fin qs /\ Forall (fun q => 0 <= q <= hi)%Q qs.
Proof.
  intros Hna [Hlo Hhi]%range_errors_nil. apply all_finite.
  intros x Hx. apply number_in_range.
  - by eapply no_na_values.
  - apply (any_false_elem _ _ Hlo). apply list_elem_of_fmap. eauto.
  - apply (any_false_elem _ _ Hhi). apply list_elem_of_fmap. eauto.
Qed.

Lemma valid_table (df df' : DataFrame) (errors : list string) :
  validate_experiment_data df = Ok (df', (true, errors)) ->
  errors = [] /\
  exists (qi qv : list Q) (sp : list fl),
    columns df' !! "电流" = Some (map CNum (map Fin qi)) /\
    columns df' !! "电压" = Some (map CNum (map Fin qv)) /\
    columns df' !! "功率" = Some (map CNum sp) /\
    Forall (fun q => 0 <= q <= 1000)%Q qi /\
    Forall (fun q => 0 <= q <= 10000)%Q qv /\
    (forall x, x ∈ sp -> is_nan x = false).
Proof.
  intros Hv.
  destruct (validate_experiment_data_inv _ _ _ _ Hv)
    as (Hdf & Hvalid & Herr & _ & Hseries).
  symmetry in Hvalid. apply bool_decide_eq_true in Hvalid.
  split; [done|]. rewrite Hvalid in Herr. symmetry in Herr.
  apply app_nil_inv in Herr as [Hmiss Herr].
  apply app_nil_inv in Herr as [Htype Herr].
  apply app_nil_inv in Herr as [Hr1 Herr].
  apply app_nil_inv in Herr as [Hr2 _].
  set (df1 := normalize_columns df) in *.
  assert (forall col, col ∈ required_columns -> has_column df' col = true)
    as Hhas.
  { intros col Hcol. rewrite Hdf, has_column_coerced.
    by apply missing_err_nil. }
  destruct Hseries as (si & sv & sp & Hsi & Hsv & Hsp).
  { cbn [forallb]. rewrite !Hhas by by_computation. done. }
  unfold type_errors in Htype.
  apply app_nil_inv in Htype as [Ht1 Htype].
  apply app_nil_inv in Htype as [Ht2 Ht3].
  rewrite Hdf in Hsi, Hsv, Hsp.
  apply series_coerced_inv in Hsi as (ci & Hci & Hni & Hli); [|by_computation].
  apply series_coerced_inv in Hsv as (cv & Hcv & Hnv & Hlv); [|by_computation].
  apply series_coerced_inv in Hsp as (cp & Hcp & Hnp & Hlp); [|by_computation].
  pose proof (coerce_err_nil _ _ _ Ht1 Hci) as Hnai. rewrite Hni in Hnai.
  pose proof (coerce_err_nil _ _ _ Ht2 Hcv) as Hnav. rewrite Hnv in Hnav.
  pose proof (coerce_err_nil _ _ _ Ht3 Hcp) as Hnap. rewrite Hnp in Hnap.
  unfold range_part in Hr1, Hr2.
  rewrite Hhas in Hr1, Hr2 by by_computation.
  assert (series df' "电流" = Ok si) as Hsi'
    by (unfold series; rewrite Hdf, Hli; apply numeric_values).
  assert (series df' "电压" = Ok sv) as Hsv'
    by (unfold series; rewrite Hdf, Hlv; apply numeric_values).
  assert (series df' "功率" = Ok sp) as Hsp'
    by (unfold series; rewrite Hdf, Hlp; apply numeric_values).
  rewrite Hsi' in Hr1. rewrite Hsv' in Hr2.
  destruct (in_range_values si 1000 _ _ Hnai Hr1) as (qi & -> & Hqi).
  destruct (in_range_values sv 10000 _ _ Hnav Hr2) as (qv & -> & Hqv).
  exists qi, qv, sp. rewrite Hdf.
  split; [done|]. split; [done|]. split; [done|].
  split; [done|]. split; [done|].
  intros x Hx. by eapply no_na_values.
Qed.

(** X1: when the validation says valid, the error list is empty and the
    table it leaves has the three columns, with current a finite number in
    [0, 1000] and voltage one in [0, 10000] in every cell, and power
    without NaN. *)
Theorem validate_experiment_data_sound (df df' : DataFrame)
    (errors : list string) :
  validate_experiment_data df = Ok (df', (true, errors)) ->
  errors = [] /\
  exists (qi qv : list Q) (sp : list fl),
    columns df' !! "电流" = Some (map CNum (map Fin qi)) /\
    columns df' !! "电压" = Some (map CNum (map Fin qv)) /\
    columns df' !! "功率" = Some (map CNum sp) /\
    Forall (fun q => 0 <= q <= 1000)%Q qi /\
    Forall (fun q => 0 <= q <= 10000)%Q qv /\
    (forall x, x ∈ sp -> is_nan x = false).
Proof. apply valid_table. Qed.

End ValidationSound.

Lemma validate_experiment_data_sound_witness :
  @validate_experiment_data sample_runtime df_english
    = Ok (@coerced sample_runtime (normalize_columns df_english), (true, [])) /\
  exists qi,
    columns (@coerced sample_runtime (normalize_columns df_english)) !! "电流"
      = Some (map CNum (map Fin qi)) /\
    Forall (fun q => 0 <= q <= 1000)%Q qi.
Proof.
  assert (@validate_experiment_data sample_runtime df_english
          = Ok (@coerced sample_runtime (normalize_columns df_english),
                (true, []))) as E by (vm_compute; reflexivity).
  split; [exact E|].
  destruct (@validate_experiment_data_sound sample_runtime df_english _ [] E)
    as (_ & qi & _ & _ & Hci & _ & _ & Hqi & _).
  exists qi. split; [exact Hci | exact Hqi].
Defined.

(** ** What the validation reports *)

Section ValidationReports.
Context `{Runtime}.

Lemma validate_not_valid (df df' : DataFrame) (valid : bool)
    (errors : list string) (msg : string) :
  validate_experiment_data df = Ok (df', (valid, errors)) ->
  msg ∈ errors -> valid = false.
Proof.
  intros Hv Hin.
  destruct (validate_experiment_data_inv _ _ _ _ Hv) as (_ & -> & _).
  apply bool_decide_eq_false. intros ->. by apply elem_of_nil in Hin.
Qed.

(** X2: when a required column is absent after the renaming, the table is
    not valid and the first error is the one for missing columns, which
    lists every absent required name, in the order current, voltage,
    power. *)
Theorem validate_experiment_data_missing (df df' : DataFrame) (valid : bool)
    (errors : list string) (col : string) :
  validate_experiment_data df = Ok (df', (valid, errors)) ->
  col ∈ required_columns ->
  has_column (normalize_columns df) col = false ->
  valid = false /\
  col ∈ missing_columns (normalize_columns df) /\
  errors !! 0%nat =
    Some ("缺少必需列: "
          +:+ String.concat ", " (missing_columns (normalize_columns df))).
Proof.
  intros Hv Hcol Hno.
  assert (col ∈ missing_columns (normalize_columns df)) as Hin
    by (unfold missing_columns; apply list_elem_of_filter; done).
  destruct (validate_experiment_data_inv _ _ _ _ Hv) as (_ & _ & Herr & _).
  assert (errors !! 0%nat =
          Some ("缺少必需列: "
                +:+ String.concat ", " (missing_columns (normalize_columns df))))
    as Hfirst.
  { rewrite Herr. unfold missing_err.
    destruct (missing_columns (normalize_columns df)) as [|m ms];
      [by apply elem_of_nil in Hin | done]. }
  split; [|done].
  eapply validate_not_valid; [exact Hv|].
  by eapply list_elem_of_lookup_2.
Qed.

(** X3: a required column that holds, after the renaming, a cell that the
    coercion turns into NaN (text that is not a number, an empty cell, a
    NaN) is reported as holding non-numeric data, and the table is not
    valid. *)
Theorem validate_experiment_data_non_numeric (df df' : DataFrame)
    (valid : bool) (errors : list string) (col : string) (c : list cell)
    (bad : cell) :
  validate_experiment_data df = Ok (df', (valid, errors)) ->
  col ∈ required_columns ->
  columns (normalize_columns df) !! col = Some c ->
  bad ∈ c -> isna (to_numeric_cell bad) = true ->
  valid = false /\ ("列 '" +:+ col +:+ "' 包含非数值数据") ∈ errors.
Proof.
  intros Hv Hcol Hc Hbad Hna.
  assert (("列 '" +:+ col +:+ "' 包含非数值数据") ∈ errors) as Hin.
  { destruct (validate_experiment_data_inv _ _ _ _ Hv) as (_ & _ & -> & _).
    apply elem_of_app. right. apply elem_of_app. left.
    assert (coerce_err col (normalize_columns df)
            = ["列 '" +:+ col +:+ "' 包含非数值数据"]) as Hce.
    { unfold coerce_err. rewrite Hc.
      rewrite (proj2 (any_true_elem _)); [done|].
      unfold to_numeric. rewrite map_map.
      apply list_elem_of_fmap. exists bad. done. }
    unfold type_errors. unfold required_columns in Hcol.
    rewrite !elem_of_cons in Hcol.
    destruct Hcol as [-> | [-> | [-> | Hnil]]];
      [| | |by apply elem_of_nil in Hnil];
      rewrite Hce; rewrite !elem_of_app, !elem_of_cons; tauto. }
  split; [|done]. by eapply validate_not_valid.
Qed.

Lemma range_part_reports (df : DataFrame) (col : string) (s : list fl)
    (hi : Q) (m1 m2 : string) (x : fl) :
  has_column df col = true -> series df col = Ok s -> x ∈ s ->
  (flt x (Fin 0) = true -> m1 ∈ range_part df col hi m1 m2) /\
  (fgt x (Fin hi) = true -> m2 ∈ range_part df col hi m1 m2).
Proof.
  intros Hhas Hs Hx. unfold range_part, range_errors. rewrite Hhas, Hs.
  split; intros Hf.
  - rewrite (proj2 (any_true_elem (map (fun x => flt x (Fin 0)) s))).
    + apply elem_of_app. left. by left.
    + apply list_elem_of_fmap. exists x. done.
  - rewrite (proj2 (any_true_elem (map (fun x => fgt x (Fin hi)) s))).
    + apply elem_of_app. right. by left.
    + apply list_elem_of_fmap. exists x. done.
Qed.

Lemma validated_series_member (df df' : DataFrame) (valid : bool)
    (errors : list string) (col : string) (c : list cell) (cell0 : cell)
    (x : fl) :
  validate_experiment_data df = Ok (df', (valid, errors)) ->
  col = "电流" \/ col = "电压" ->
  columns (normalize_columns df) !! col = Some c ->
  cell0 ∈ c -> to_numeric_cell cell0 = CNum x ->
  has_column df' col = true /\ exists s, series df' col = Ok s /\ x ∈ s.
Proof.
  intros Hv Hcol Hc Hcell Hx.
  destruct (validate_experiment_data_inv _ _ _ _ Hv) as (Hdf & _ & _ & Hs & _).
  assert (col ∈ required_columns) as Hr
    by (destruct Hcol as [-> | ->]; by_computation).
  assert (has_column df' col = true) as Hhas.
  { rewrite Hdf, has_column_coerced. apply has_column_true. rewrite Hc. eauto. }
  split; [done|]. destruct (Hs col Hcol Hhas) as [s Hser].
  exists s. split; [done|]. rewrite Hdf in Hser.
  apply series_coerced_inv in Hser as (c' & Hc' & Hnum & _); [|done].
  assert (c' = c) as -> by congruence.
  assert (CNum x ∈ map CNum s) as Hin.
  { rewrite <- Hnum, <- Hx. unfold to_numeric.
    apply list_elem_of_fmap. eauto. }
  apply list_elem_of_fmap in Hin as (y & [= ->] & Hy). done.
Qed.

(** X4: a current or voltage below 0, or a current above 1000 or a voltage
    above 10000, in any cell after the renaming and the coercion, is
    reported with the error of its column and direction, and the table is
    not valid; the two directions of a column are reported independently. *)
Theorem validate_experiment_data_out_of_range (df df' : DataFrame)
    (valid : bool) (errors : list string) (c : list cell) (cell0 : cell)
    (x : fl) :
  validate_experiment_data df = Ok (df', (valid, errors)) ->
  cell0 ∈ c -> to_numeric_cell cell0 = CNum x ->
  (columns (normalize_columns df) !! "电流" = Some c ->
     (flt x (Fin 0) = true ->
        valid = false /\ "电流值不能为负数" ∈ errors) /\
     (fgt x (Fin 1000) = true ->
        valid = false /\ "电流值超出合理范围 (>1000A)" ∈ errors)) /\
  (columns (normalize_columns df) !! "电压" = Some c ->
     (flt x (Fin 0) = true ->
        valid = false /\ "电压值不能为负数" ∈ errors) /\
     (fgt x (Fin 10000) = true ->
        valid = false /\ "电压值超出合理范围 (>10000V)" ∈ errors)).
Proof.
  intros Hv Hcell Hx.
  destruct (validate_experiment_data_inv _ _ _ _ Hv) as (_ & _ & Herr & _).
  split; intros Hc.
  - destruct (validated_series_member _ _ _ _ "电流" c cell0 x Hv)
      as (Hhas & s & Hs & Hin); [by left | done..|].
    destruct (range_part_reports df' "电流" s 1000
                "电流值不能为负数" "电流值超出合理范围 (>1000A)" x Hhas Hs Hin)
      as [Hlo Hhi].
    split; intros Hf;
      (assert (forall m, m ∈ range_part df' "电流" 1000
                 "电流值不能为负数" "电流值超出合理范围 (>1000A)" -> m ∈ errors)
         as Hsub by (intros m Hm; rewrite Herr, !elem_of_app; tauto));
      (split; [eapply validate_not_valid; [exact Hv|]|]); apply Hsub; auto.
  - destruct (validated_series_member _ _ _ _ "电压" c cell0 x Hv)
      as (Hhas & s & Hs & Hin); [by right | done..|].
    destruct (range_part_reports df' "电压" s 10000
                "电压值不能为负数" "电压值超出合理范围 (>10000V)" x Hhas Hs Hin)
      as [Hlo Hhi].
    split; intros Hf;
      (assert (forall m, m ∈ range_part df' "电压" 10000
                 "电压值不能为负数" "电压值超出合理范围 (>10000V)" -> m ∈ errors)
         as Hsub by (intros m Hm; rewrite Herr, !elem_of_app; tauto));
      (split; [eapply validate_not_valid; [exact Hv|]|]); apply Hsub; auto.
Qed.

End ValidationReports.

Ltac validated E df' valid errors :=
  match goal with
  | |- context [@validate_experiment_data ?R ?d] =>
      destruct (@validate_experiment_data R d)
        as [[df' [valid errors]]|?] eqn:E;
      [|vm_compute in E; discriminate E]
  end.

Lemma validate_experiment_data_missing_witness :
  exists df' valid errors,
    @validate_experiment_data sample_runtime df_messy
      = Ok (df', (valid, errors)) /\
    valid = false /\ errors !! 0%nat = Some "缺少必需列: 功率".
Proof.
  validated E df' valid errors. exists df', valid, errors.
  split; [reflexivity|].
  destruct (@validate_experiment_data_missing sample_runtime df_messy df'
              valid errors "功率" E) as (Hv & _ & Hfirst);
    [by_computation | vm_compute; reflexivity |].
  split; [exact Hv|]. rewrite Hfirst. vm_compute. reflexivity.
Defined.

Lemma validate_experiment_data_non_numeric_witness :
  exists df' valid errors,
    @validate_experiment_data sample_runtime df_messy
      = Ok (df', (valid, errors)) /\
    valid = false /\ "列 '电流' 包含非数值数据" ∈ errors.
Proof.
  validated E df' valid errors. exists df', valid, errors.
  split; [reflexivity|].
  apply (@validate_experiment_data_non_numeric sample_runtime df_messy df'
           valid errors "电流" [num 5; CStr "abc"] (CStr "abc") E).
  - by_computation.
  - vm_compute. reflexivity.
  - apply elem_of_cons. right. apply elem_of_cons. by left.
  - reflexivity.
Defined.

Lemma validate_experiment_data_out_of_range_witness :
  exists df' valid errors,
    @validate_experiment_data sample_runtime df_messy
      = Ok (df', (valid, errors)) /\
    valid = false /\ "电压值不能为负数" ∈ errors.
Proof.
  validated E df' valid errors. exists df', valid, errors.
  split; [reflexivity|].
  destruct (@validate_experiment_data_out_of_range sample_runtime df_messy df'
              valid errors [num (-3); CNull] (num (-3)) (of_Z (-3)) E)
    as [_ Hvolt].
  - apply elem_of_cons. by left.
  - reflexivity.
  - destruct Hvolt as [Hneg _]; [vm_compute; reflexivity|].
    apply Hneg. reflexivity.
Defined.

(** * Further properties of the renaming of alias columns *)

Lemma rename_first_alias_agree (cn : string) (names : list string)
    (d1 d2 : DataFrame) :
  cn ∈ names ->
  (forall k, k ∈ names -> columns d1 !! k = columns d2 !! k) ->
  forall alts, cn ∉ alts -> alts ⊆ names ->
  forall k, k ∈ names ->
    columns (rename_first_alias cn alts d1) !! k
    = columns (rename_first_alias cn alts d2) !! k.
Proof.
  intros Hcn Hag. induction alts as [|alt rest IH]; intros Hno Hsub k Hk.
  - by apply Hag.
  - assert (alt ∈ names) as Halt by (apply Hsub; by left).
    assert (alt <> cn) as Hne by (intros ->; apply Hno; by left).
    assert (has_column d1 alt = has_column d2 alt) as Ea
      by (apply has_column_ext; by rewrite (Hag alt Halt)).
    assert (has_column d1 cn = has_column d2 cn) as Ec
      by (apply has_column_ext; by rewrite (Hag cn Hcn)).
    unfold rename_first_alias; fold rename_first_alias.
    rewrite Ea, Ec.
    destruct (has_column d2 alt && negb (has_column d2 cn)) eqn:E.
    + apply andb_true_iff in E as [E _].
      rewrite !rename_column_lookup by (done || congruence).
      destruct (decide (k = cn)); [by apply Hag|].
      destruct (decide (k = alt)); [done|]. by apply Hag.
    + apply IH; [|intros y Hy; apply Hsub; by right|done].
      intros Hin. apply Hno. by right.
Qed.

(** For the names of one canonical field, the three rounds of the renaming
    do what the round of that field alone does. *)
Lemma normalize_columns_group (df : DataFrame) (cn : string)
    (alts : list string) (k : string) :
  (cn, alts) ∈ alt_columns -> k ∈ cn :: alts ->
  columns (normalize_columns df) !! k
  = columns (rename_first_alias cn alts df) !! k.
Proof.
  intros Hg Hk. unfold alt_columns in Hg. rewrite !elem_of_cons in Hg.
  unfold normalize_columns, alt_columns. cbn [foldl].
  set (r1 := rename_first_alias "电流" ["current"; "Current"; "I"; "i"]).
  set (r2 := rename_first_alias "电压" ["voltage"; "Voltage"; "V"; "v"]).
  set (r3 := rename_first_alias "功率" ["power"; "Power"; "P"; "p"]).
  assert (forall (cn' : string) (alts' : list string) d (x : string)
                 (names : list string),
            x ∈ names -> cn' ∉ alts' -> cn' ∉ names ->
            Forall (fun y => y ∉ names) alts' ->
            columns (rename_first_alias cn' alts' d) !! x = columns d !! x)
    as Hother.
  { intros cn' alts' d x names Hx H1 H2 H3.
    apply rename_first_alias_other; [done| |].
    - intros ->. done.
    - intros Hin. rewrite Forall_forall in H3. by apply (H3 x). }
  destruct Hg as [[= -> ->] | [[= -> ->] | [[= -> ->] | Hnil]]];
    [| | |by apply elem_of_nil in Hnil].
  - unfold r3, r2.
    rewrite (Hother _ _ _ k _ Hk); [|by_computation..].
    rewrite (Hother _ _ _ k _ Hk); [|by_computation..]. done.
  - unfold r3. rewrite (Hother _ _ _ k _ Hk); [|by_computation..].
    unfold r2.
    apply (rename_first_alias_agree "电压"
             ("电压" :: ["voltage"; "Voltage"; "V"; "v"]));
      [by_computation | | by_computation | intros y Hy; by right | done].
    intros y Hy. unfold r1. apply (Hother _ _ _ y _ Hy); by_computation.
  - unfold r3.
    apply (rename_first_alias_agree "功率"
             ("功率" :: ["power"; "Power"; "P"; "p"]));
      [by_computation | | by_computation | intros y Hy; by right | done].
    intros y Hy. unfold r2, r1.
    rewrite (Hother _ _ _ y _ Hy); [|by_computation..].
    apply (Hother _ _ _ y _ Hy); by_computation.
Qed.

Lemma alt_columns_nodup (cn : string) (alts : list string) :
  (cn, alts) ∈ alt_columns -> NoDup (cn :: alts).
Proof.
  unfold alt_columns. rewrite !elem_of_cons.
  intros [[= -> ->] | [[= -> ->] | [[= -> ->] | Hnil]]];
    [by_computation.. | by apply elem_of_nil in Hnil].
Qed.

Lemma rename_first_alias_first (cn : string) (pre : list string) (a : string)
    (post : list string) (df : DataFrame) :
  has_column df cn = false ->
  Forall (fun x => has_column df x = false) pre ->
  has_column df a = true ->
  rename_first_alias cn (pre ++ a :: post) df = rename_column a cn df.
Proof.
  intros Hcn Hpre Ha. induction pre as [|x pre IH]; simpl;
    unfold rename_first_alias; fold rename_first_alias.
  - by rewrite Ha, Hcn.
  - apply Forall_cons in Hpre as [Hx Hpre]. rewrite Hx. simpl. by apply IH.
Qed.

(** X6: when the canonical name of a field is already a column, the
    renaming leaves that column and every alias column of the field as they
    are (the canonical name wins, nothing is merged). *)
Theorem normalize_columns_canonical_wins (df : DataFrame) (cn : string)
    (alts : list string) (k : string) :
  (cn, alts) ∈ alt_columns -> has_column df cn = true -> k ∈ cn :: alts ->
  columns (normalize_columns df) !! k = columns df !! k.
Proof.
  intros Hg Hcn Hk. rewrite (normalize_columns_group df cn alts k Hg Hk).
  rewrite rename_first_alias_settled_id; [done|]. by left.
Qed.

(** X7: when the canonical name is not a column, the first alias of the
    field that is a column, in the listed order, gives its cells to the
    canonical name and disappears, and the aliases listed after it stay as
    they are. *)
Theorem normalize_columns_first_alias (df : DataFrame) (cn : string)
    (pre : list string) (a : string) (post : list string) :
  (cn, pre ++ a :: post) ∈ alt_columns ->
  has_column df cn = false ->
  Forall (fun x => has_column df x = false) pre ->
  has_column df a = true ->
  columns (normalize_columns df) !! cn = columns df !! a /\
  columns (normalize_columns df) !! a = None /\
  forall k, k ∈ post -> columns (normalize_columns df) !! k = columns df !! k.
Proof.
  intros Hg Hcn Hpre Ha.
  pose proof (alt_columns_nodup _ _ Hg) as Hnd.
  apply NoDup_cons in Hnd as [Hcn_notin Hnd].
  apply NoDup_app in Hnd as (_ & Hdisj & Hnd).
  apply NoDup_cons in Hnd as [Ha_post _].
  assert (a <> cn) as Hne.
  { intros ->. apply Hcn_notin. apply elem_of_app. right. by left. }
  assert (forall k, k ∈ cn :: pre ++ a :: post ->
            columns (normalize_columns df) !! k
            = columns (rename_column a cn df) !! k) as Hstep.
  { intros k Hk. rewrite (normalize_columns_group df _ _ k Hg Hk).
    by rewrite rename_first_alias_first. }
  split; [|split].
  - rewrite Hstep by (by left).
    rewrite rename_column_lookup by done. by rewrite decide_True.
  - rewrite Hstep by (right; apply elem_of_app; right; by left).
    rewrite rename_column_lookup by done.
    rewrite decide_False by done. by rewrite decide_True.
  - intros k Hk.
    rewrite Hstep by (right; apply elem_of_app; right; by right).
    rewrite rename_column_lookup by done.
    rewrite decide_False.
    + rewrite decide_False; [done|]. intros ->. done.
    + intros ->. apply Hcn_notin. apply elem_of_app. right. by right.
Qed.

(** X8: after the renaming a canonical name is a column exactly when the
    table had that name or one of its aliases as a column: a field is
    reported missing only when neither is there. *)
Theorem normalize_columns_presence (df : DataFrame) (cn : string)
    (alts : list string) :
  (cn, alts) ∈ alt_columns ->
  (has_column (normalize_columns df) cn = true <->
   has_column df cn = true \/
   exists alt, alt ∈ alts /\ has_column df alt = true).
Proof.
  intros Hg.
  pose proof (alt_columns_nodup _ _ Hg) as Hnd.
  apply NoDup_cons in Hnd as [Hcn_notin _].
  assert (has_column (normalize_columns df) cn
          = has_column (rename_first_alias cn alts df) cn) as ->.
  { apply has_column_ext.
    by rewrite (normalize_columns_group df cn alts cn Hg) by (by left). }
  destruct (rename_first_alias_cases cn alts df)
    as [[-> Hs]|(a & Ha & Hha & Hc & ->)].
  - split; [by left|]. intros [Hcn|(alt & Halt & Hpres)]; [done|].
    destruct Hs as [Hs|Hs]; [done|].
    rewrite Forall_forall in Hs. specialize (Hs alt Halt). congruence.
  - assert (a <> cn) as Hne by (intros ->; done).
    split; [intros _; right; eauto|]. intros _.
    apply has_column_true. rewrite rename_column_lookup by done.
    rewrite decide_True by done. by apply has_column_true.
Qed.

Lemma normalize_columns_canonical_wins_witness :
  columns (normalize_columns df_both) !! "current" = Some (nums [9; 9]%Z).
Proof.
  rewrite (normalize_columns_canonical_wins df_both "电流"
             ["current"; "Current"; "I"; "i"] "current");
    [vm_compute; reflexivity | by_computation | vm_compute; reflexivity
     | by_computation].
Defined.

Lemma normalize_columns_first_alias_witness :
  columns (normalize_columns df_two_aliases) !! "电流" = Some (nums [1; 2]%Z) /\
  columns (normalize_columns df_two_aliases) !! "I" = None /\
  columns (normalize_columns df_two_aliases) !! "i" = Some (nums [7; 8]%Z).
Proof.
  destruct (normalize_columns_first_alias df_two_aliases "电流"
              ["current"; "Current"] "I" ["i"]) as (H1 & H2 & H3);
    [by_computation | vm_compute; reflexivity | by_computation
     | vm_compute; reflexivity |].
  split; [rewrite H1; vm_compute; reflexivity|]. split; [exact H2|].
  rewrite H3; [vm_compute; reflexivity | by_computation].
Defined.

Lemma normalize_columns_presence_witness :
  has_column (normalize_columns df_messy) "电压" = true.
Proof.
  apply (normalize_columns_presence df_messy "电压"
           ["voltage"; "Voltage"; "V"; "v"]); [by_computation|].
  right. exists "v". split; [by_computation | vm_compute; reflexivity].
Defined.

(** * Further properties of the statistics *)

Section StatisticsEntries.
Context `{Runtime}.

Lemma column_statistics_inv (df : DataFrame) (stats stats' : gmap string fl)
    (col : string) :
  column_statistics df stats col = Ok stats' ->
  stats' = column_entries df col stats /\
  (has_column df col = true -> exists s, series df col = Ok s).
Proof.
  unfold column_statistics, column_entries.
  destruct (has_column df col).
  - destruct (series df col) as [s|e]; [|discriminate].
    rewrite result_bind_Ok. cbv zeta. intros [= <-]. eauto.
  - intros [= <-]. split; [done | discriminate].
Qed.

Lemma for_columns_inv (df : DataFrame) (stats : gmap string fl) :
  for_columns df ["电流"; "电压"; "功率"] ∅ = Ok stats ->
  stats = measured_entries df /\
  forall col, col ∈ required_columns -> has_column df col = true ->
    exists s, series df col = Ok s.
Proof.
  cbn [for_columns]. intros Hf.
  inv_bind Hf. inv_bind Hf. inv_bind Hf. injection Hf as <-.
  apply column_statistics_inv in Ha as [-> H1].
  apply column_statistics_inv in Ha0 as [-> H2].
  apply column_statistics_inv in Ha1 as [-> H3].
  split; [done|]. intros col Hcol. unfold required_columns in Hcol.
  rewrite !elem_of_cons in Hcol.
  destruct Hcol as [-> | [-> | [-> | Hnil]]];
    [done.. | by apply elem_of_nil in Hnil].
Qed.

Lemma calculate_statistics_inv (df : DataFrame) (stats : gmap string fl) :
  calculate_statistics df = Ok stats ->
  (forall col, col ∈ required_columns -> has_column df col = true ->
     exists s, series df col = Ok s) /\
  stats =
    if has_column df "功率" then
      match series df "功率", series df "电流", series df "电压" with
      | Ok p, Ok i, Ok v =>
          if has_column df "电流" && has_column df "电压" then
            <["功率因数" :=
                fdiv (series_mean p) (fmul (series_mean i) (series_mean v))]>
              (<["总能量" := fmul (series_sum p) (Fin (1 # 1000))]>
                 (measured_entries df))
          else <["功率因数" := Fin 0]>
                 (<["总能量" := fmul (series_sum p) (Fin (1 # 1000))]>
                    (measured_entries df))
      | Ok p, _, _ =>
          <["功率因数" := Fin 0]>
            (<["总能量" := fmul (series_sum p) (Fin (1 # 1000))]>
               (measured_entries df))
      | _, _, _ => measured_entries df
      end
    else measured_entries df.
Proof.
  unfold calculate_statistics. intros Hc. inv_bind Hc.
  apply for_columns_inv in Ha as [-> Hser]. split; [done|].
  destruct (has_column df "功率") eqn:Ep; [|by injection Hc as <-].
  destruct (Hser "功率") as [p Hp]; [by_computation | done |].
  rewrite Hp in Hc |- *. rewrite result_bind_Ok in Hc. cbv zeta in Hc.
  destruct (has_column df "电流") eqn:Ei.
  - destruct (Hser "电流") as [i Hi]; [by_computation | done |].
    rewrite Hi in Hc |- *.
    destruct (has_column df "电压") eqn:Ev.
    + destruct (Hser "电压") as [v Hv]; [by_computation | done |].
      rewrite Hv in Hc |- *. cbn [andb] in *.
      rewrite !result_bind_Ok in Hc. by injection Hc as <-.
    + cbn [andb] in *. injection Hc as <-.
      by destruct (series df "电压").
  - cbn [andb] in *. injection Hc as <-.
    by destruct (series df "电流"), (series df "电压").
Qed.

End StatisticsEntries.

Ltac lookup_inserts :=
  repeat first
    [ rewrite lookup_insert_eq
    | rewrite lookup_insert_ne by (by_computation) ];
  rewrite ?lookup_empty.

Section StatisticsTheorems.
Context `{Runtime}.

Lemma add_column_entries_other (col : string) (s : list fl)
    (stats : gmap string fl) (key : string) :
  key ∉ entry_keys col ->
  add_column_entries col s stats !! key = stats !! key.
Proof.
  unfold entry_keys. rewrite !not_elem_of_cons. intros (H1 & H2 & H3 & H4 & H5 & _).
  unfold add_column_entries. by rewrite !lookup_insert_ne by done.
Qed.

Lemma column_entries_other (df : DataFrame) (col : string)
    (stats : gmap string fl) (key : string) :
  key ∉ entry_keys col -> column_entries df col stats !! key = stats !! key.
Proof.
  intros Hk. unfold column_entries.
  destruct (has_column df col); [|done].
  destruct (series df col); [|done]. by apply add_column_entries_other.
Qed.

Lemma calculate_statistics_lookup_measured (df : DataFrame)
    (stats : gmap string fl) (key : string) :
  calculate_statistics df = Ok stats ->
  key <> "功率因数" -> key <> "总能量" ->
  stats !! key = measured_entries df !! key.
Proof.
  intros Hc H1 H2. apply calculate_statistics_inv in Hc as [_ ->].
  destruct (has_column df "功率"); [|done].
  destruct (series df "功率"); [|done].
  destruct (series df "电流"), (series df "电压"),
    (has_column df "电流" && has_column df "电压");
    by rewrite ?lookup_insert_ne by done.
Qed.

(** X9: the summary is built from the columns named 电流, 电压 and 功率
    only: a table without them, whatever other columns it has (the aliases
    current, voltage, power included), gets the empty summary, and nothing
    is raised. *)
Theorem calculate_statistics_no_columns (df : DataFrame) :
  has_column df "电流" = false -> has_column df "电压" = false ->
  has_column df "功率" = false ->
  calculate_statistics df = Ok ∅.
Proof.
  intros Hi Hv Hp. unfold calculate_statistics. cbn [for_columns].
  unfold column_statistics. rewrite Hi, Hv, Hp. reflexivity.
Qed.

Lemma summary_entries (df : DataFrame)
    (stats : gmap string fl) (col : string) (s : list fl) :
  calculate_statistics df = Ok stats ->
  col ∈ required_columns -> series df col = Ok s ->
  stats !! (col +:+ "_平均值") = Some (series_mean s) /\
  stats !! (col +:+ "_最大值") = Some (series_max s) /\
  stats !! (col +:+ "_最小值") = Some (series_min s) /\
  stats !! (col +:+ "_标准差") = Some (series_std s) /\
  stats !! (col +:+ "_中位数") = Some (series_median s).
Proof.
  intros Hc Hcol Hs.
  pose proof (series_has_column _ _ _ Hs) as Hhas.
  assert (forall key, key ∈ entry_keys col ->
            stats !! key = add_column_entries col s ∅ !! key) as Hkey.
  { intros key Hk. unfold required_columns in Hcol.
    rewrite !elem_of_cons in Hcol.
    destruct Hcol as [-> | [-> | [-> | Hnil]]];
      [| | |by apply elem_of_nil in Hnil];
      unfold entry_keys in Hk; rewrite !elem_of_cons in Hk;
      destruct Hk as [-> | [-> | [-> | [-> | [-> | Hnil]]]]];
      try (by apply elem_of_nil in Hnil);
      (rewrite (calculate_statistics_lookup_measured df stats) by
          (done || by_computation));
      unfold measured_entries;
      rewrite ?column_entries_other by by_computation;
      unfold column_entries at 1; rewrite Hhas, Hs;
      unfold add_column_entries; cbn [String.append];
      lookup_inserts;
      rewrite ?column_entries_other by by_computation;
      by rewrite ?lookup_empty. }
  rewrite !Hkey by (unfold entry_keys; rewrite !elem_of_cons; tauto).
  unfold add_column_entries.
  assert (forall a b : string, col +:+ a = col +:+ b -> a = b) as Hinj.
  { clear. induction col as [|c col IH]; intros a b; simpl; [done|].
    intros [= Hab]. by apply IH. }
  assert (forall a b : string, a <> b -> col +:+ a <> col +:+ b) as Hne
    by (intros a b Hab Heq; apply Hab; by apply Hinj).
  repeat split;
    repeat first
      [ rewrite lookup_insert_eq
      | rewrite lookup_insert_ne by (apply Hne; by_computation) ];
    reflexivity.
Qed.

(** X10: in a summary that is returned, a column among 电流, 电压, 功率
    that is present has its five entries, the mean, the maximum, the
    minimum, the sample standard deviation and the median of the column,
    under the name of the column followed by the name of the measure. *)
Theorem calculate_statistics_entries (df : DataFrame)
    (stats : gmap string fl) (col : string) (s : list fl) :
  calculate_statistics df = Ok stats ->
  col ∈ required_columns -> series df col = Ok s ->
  stats !! (col +:+ "_平均值") = Some (series_mean s) /\
  stats !! (col +:+ "_最大值") = Some (series_max s) /\
  stats !! (col +:+ "_最小值") = Some (series_min s) /\
  stats !! (col +:+ "_标准差") = Some (series_std s) /\
  stats !! (col +:+ "_中位数") = Some (series_median s).
Proof. apply summary_entries. Qed.

End StatisticsTheorems.

Section StatisticsMore.
Context `{Runtime}.

Lemma calculate_statistics_total (df : DataFrame) :
  (forall col, col ∈ required_columns -> has_column df col = true ->
     exists s, series df col = Ok s) ->
  exists stats, calculate_statistics df = Ok stats.
Proof.
  intros Hser. unfold calculate_statistics. cbn [for_columns].
  assert (forall col stats, col ∈ required_columns ->
            exists stats', column_statistics df stats col = Ok stats') as Hcol.
  { intros col stats Hcol. unfold column_statistics.
    destruct (has_column df col) eqn:E; [|by eexists].
    destruct (Hser col Hcol E) as [s ->]. rewrite result_bind_Ok. by eexists. }
  destruct (Hcol "电流" ∅) as [s1 ->]; [by_computation|]. rewrite result_bind_Ok.
  destruct (Hcol "电压" s1) as [s2 ->]; [by_computation|]. rewrite result_bind_Ok.
  destruct (Hcol "功率" s2) as [s3 ->]; [by_computation|]. rewrite !result_bind_Ok.
  destruct (has_column df "功率") eqn:Ep; [|by eexists].
  destruct (Hser "功率") as [p ->]; [by_computation | done |].
  rewrite result_bind_Ok. cbv zeta.
  destruct (has_column df "电流") eqn:Ei; [|by eexists].
  destruct (has_column df "电压") eqn:Ev; [|by eexists].
  destruct (Hser "电流") as [i ->]; [by_computation | done |].
  destruct (Hser "电压") as [v ->]; [by_computation | done |].
  cbn [andb]. rewrite !result_bind_Ok. by eexists.
Qed.

Lemma summary_energy (df : DataFrame)
    (stats : gmap string fl) (p : list fl) :
  calculate_statistics df = Ok stats -> series df "功率" = Ok p ->
  stats !! "总能量" = Some (fmul (series_sum p) (Fin (1 # 1000))) /\
  (has_column df "电流" = false \/ has_column df "电压" = false ->
   stats !! "功率因数" = Some (Fin 0)).
Proof.
  intros Hc Hp. apply calculate_statistics_inv in Hc as [_ ->].
  rewrite (series_has_column _ _ _ Hp), Hp.
  split.
  - destruct (series df "电流"), (series df "电压"),
      (has_column df "电流" && has_column df "电压");
      by rewrite lookup_insert_ne, lookup_insert_eq by done.
  - intros Habs.
    assert (has_column df "电流" && has_column df "电压" = false) as ->.
    { destruct Habs as [-> | ->]; [done|]. by rewrite andb_false_r. }
    destruct (series df "电流"), (series df "电压");
      by rewrite lookup_insert_eq.
Qed.

(** X11: with a numeric power column the summary has the energy entry
    sum(power) * 0.001, and when the current or the voltage column is
    absent the power factor entry is 0. *)
Theorem calculate_statistics_power_only (df : DataFrame)
    (stats : gmap string fl) (p : list fl) :
  calculate_statistics df = Ok stats -> series df "功率" = Ok p ->
  stats !! "总能量" = Some (fmul (series_sum p) (Fin (1 # 1000))) /\
  (has_column df "电流" = false \/ has_column df "电压" = false ->
   stats !! "功率因数" = Some (Fin 0)).
Proof. apply summary_energy. Qed.

(** X12: on a table with the three columns and no row the summary is
    returned: the mean, maximum, minimum, standard deviation and median of
    each column and the power factor are NaN, and the energy is 0. *)
Theorem calculate_statistics_no_rows (df : DataFrame) :
  columns df !! "电流" = Some [] -> columns df !! "电压" = Some [] ->
  columns df !! "功率" = Some [] ->
  exists stats, calculate_statistics df = Ok stats /\
    (forall col key, col ∈ required_columns -> key ∈ entry_keys col ->
       stats !! key = Some NaN) /\
    stats !! "功率因数" = Some NaN /\
    exists e, stats !! "总能量" = Some e /\ feq e (Fin 0).
Proof.
  intros Hi Hv Hp.
  assert (forall col, col ∈ required_columns -> series df col = Ok []) as Hser.
  { intros col Hcol. unfold required_columns in Hcol.
    rewrite !elem_of_cons in Hcol. unfold series.
    destruct Hcol as [-> | [-> | [-> | Hnil]]];
      [by rewrite Hi | by rewrite Hv | by rewrite Hp
       | by apply elem_of_nil in Hnil]. }
  destruct (calculate_statistics_total df) as [stats Hc]; [by eauto|].
  exists stats. split; [done|]. split; [|split].
  - intros col key Hcol Hkey.
    destruct (summary_entries df stats col [] Hc Hcol (Hser col Hcol))
      as (H1 & H2 & H3 & H4 & H5).
    unfold entry_keys in Hkey. rewrite !elem_of_cons in Hkey.
    destruct Hkey as [-> | [-> | [-> | [-> | [-> | Hnil]]]]];
      [done.. | by apply elem_of_nil in Hnil].
  - pose proof Hc as Hc'. apply calculate_statistics_inv in Hc' as [_ ->].
    rewrite !(series_has_column df _ []) by (apply Hser; by_computation).
    rewrite !Hser by by_computation. cbn [andb].
    by rewrite lookup_insert_eq.
  - destruct (summary_energy df stats [] Hc) as [He _];
      [apply Hser; by_computation|].
    eexists. split; [exact He|]. unfold series_sum.
    change (dropna []) with (@nil fl). rewrite float_sum_nil. by vm_compute.
Qed.

(** X13: after a validation of a table without boolean cells has returned,
    whatever its verdict, the statistics of the table it leaves are
    returned too: the required columns that are present hold numbers. *)
Theorem validate_then_calculate_statistics (df df' : DataFrame)
    (r : bool * list string) :
  bool_free df -> validate_experiment_data df = Ok (df', r) ->
  exists stats, calculate_statistics df' = Ok stats.
Proof.
  intros Hb Hv. rewrite validate_experiment_data_stages in Hv.
  pose proof (checks_table _ _ _ _ Hv) as ->.
  apply calculate_statistics_total. intros col Hcol Hhas.
  rewrite has_column_coerced in Hhas.
  apply series_coerced_total; [by apply bool_free_normalize | done | done].
Qed.

End StatisticsMore.

Lemma calculate_statistics_no_columns_witness :
  @calculate_statistics sample_runtime df_records = Ok ∅.
Proof.
  apply (@calculate_statistics_no_columns sample_runtime df_records);
    vm_compute; reflexivity.
Defined.

Ltac computed_stats E stats :=
  match goal with
  | |- context [@calculate_statistics ?R ?d] =>
      destruct (@calculate_statistics_total R d) as [stats E];
      [ let col := fresh "col" in
        let Hcol := fresh "Hcol" in
        let Hhas := fresh "Hhas" in
        intros col Hcol Hhas; unfold required_columns in Hcol;
        rewrite !elem_of_cons in Hcol;
        destruct Hcol as [-> | [-> | [-> | Hcol]]];
        [ first [ vm_compute in Hhas; discriminate Hhas
                | eexists; vm_compute; reflexivity ] ..
        | by apply elem_of_nil in Hcol ]
      | ]
  end.

Lemma calculate_statistics_entries_witness :
  exists stats m,
    @calculate_statistics sample_runtime df_sorted = Ok stats /\
    stats !! "电流_平均值" = Some m /\ feq m (Fin 2) /\
    stats !! "电流_最大值" = Some (Fin 3) /\
    stats !! "电流_最小值" = Some (Fin 1).
Proof.
  computed_stats E stats.
  destruct (@calculate_statistics_entries sample_runtime df_sorted stats
              "电流" (map of_Z [1; 2; 3]%Z) E)
    as (Hmean & Hmax & Hmin & _);
    [by_computation | vm_compute; reflexivity |].
  exists stats, (series_mean (map of_Z [1; 2; 3]%Z)).
  split; [exact E|]. split; [exact Hmean|]. split; [by vm_compute|].
  split; [exact Hmax | exact Hmin].
Defined.

Lemma calculate_statistics_power_only_witness :
  exists stats e,
    @calculate_statistics sample_runtime df_power_only = Ok stats /\
    stats !! "功率因数" = Some (Fin 0) /\
    stats !! "总能量" = Some e /\ feq e (Fin 3).
Proof.
  computed_stats E stats.
  destruct (@calculate_statistics_power_only sample_runtime df_power_only stats
              (map of_Z [1000; 2000]%Z) E) as [He Hpf];
    [vm_compute; reflexivity|].
  exists stats, (fmul (series_sum (map of_Z [1000; 2000]%Z)) (Fin (1 # 1000))).
  split; [exact E|]. split; [apply Hpf; left; vm_compute; reflexivity|].
  split; [exact He | by vm_compute].
Defined.

Lemma calculate_statistics_no_rows_witness :
  exists stats,
    @calculate_statistics sample_runtime df_empty = Ok stats /\
    stats !! "功率因数" = Some NaN.
Proof.
  destruct (@calculate_statistics_no_rows sample_runtime df_empty)
    as (stats & Hc & _ & Hpf & _); try (vm_compute; reflexivity).
  exists stats. split; [exact Hc | exact Hpf].
Defined.

Lemma validate_then_calculate_statistics_witness :
  exists df' r stats,
    @validate_experiment_data sample_runtime df_messy = Ok (df', r) /\
    @calculate_statistics sample_runtime df' = Ok stats.
Proof.
  destruct (@validate_experiment_data sample_runtime df_messy)
    as [[df' r]|e] eqn:E; [|vm_compute in E; discriminate E].
  destruct (@validate_then_calculate_statistics sample_runtime df_messy df' r
              df_messy_bool_free E) as [stats Hs].
  exists df', r, stats. split; [reflexivity | exact Hs].
Defined.

(** * Further properties of the anomaly flags *)

Section AnomalyProperties.
Context `{Runtime}.

(** X14: a method other than iqr and zscore (the isolation of the
    docstring included) makes [detect_anomalies] return the copy of the
    table as it is: no flag column is added, and the column is not even
    looked up. *)
Theorem detect_anomalies_other_method (df : DataFrame) (column method : string) :
  method <> "iqr" -> method <> "zscore" ->
  detect_anomalies df column method = Ok df.
Proof.
  intros H1 H2. unfold detect_anomalies.
  apply String.eqb_neq in H1, H2. by rewrite H1, H2.
Qed.

(** X15: with method iqr or zscore, a column that the table does not have
    makes [detect_anomalies] raise KeyError: no table is returned. *)
Theorem detect_anomalies_errors (df : DataFrame) (column method : string) :
  method = "iqr" \/ method = "zscore" ->
  columns df !! column = None ->
  detect_anomalies df column method = Raise KeyError.
Proof.
  intros Hm Hno. unfold detect_anomalies, series. rewrite Hno.
  by destruct Hm as [-> | ->].
Qed.

Lemma fdiv_nan_r (x : fl) : fdiv x NaN = NaN.
Proof. by destruct x. Qed.

(** X16: with method zscore on a numeric column with fewer than two values
    that are not NaN (a single row, an empty table) the standard deviation
    is NaN and no row is flagged. *)
Theorem detect_anomalies_zscore_few_values (df : DataFrame) (column : string)
    (col : list cell) (s : list fl) :
  columns df !! column = Some col -> numeric col = Ok s ->
  (length (dropna s) <= 1)%nat ->
  exists out,
    detect_anomalies df column "zscore" = Ok out /\
    index out = index df /\
    columns out !! "异常" = Some (map (fun _ => CBool false) s).
Proof.
  intros Hcol Hs Hlen.
  unfold detect_anomalies, series. cbn [String.eqb Ascii.eqb Bool.eqb].
  rewrite Hcol, Hs, result_bind_Ok. cbv zeta.
  assert (series_std s = NaN) as ->.
  { unfold series_std. cbv zeta.
    by rewrite (proj2 (Nat.leb_le _ _) Hlen). }
  eexists. split; [reflexivity|]. split; [done|].
  unfold set_column. cbn [columns]. rewrite lookup_insert_eq. f_equal.
  rewrite map_map. apply map_ext. intros x. by rewrite fdiv_nan_r.
Qed.

End AnomalyProperties.

Lemma detect_anomalies_other_method_witness :
  @detect_anomalies sample_runtime df_five "x" "isolation" = Ok df_five.
Proof.
  apply (@detect_anomalies_other_method sample_runtime df_five "x" "isolation");
    discriminate.
Defined.

Lemma detect_anomalies_errors_witness :
  @detect_anomalies sample_runtime df_five "y" "iqr" = Raise KeyError /\
  @detect_anomalies sample_runtime df_five "y" "zscore" = Raise KeyError.
Proof.
  split.
  - apply (@detect_anomalies_errors sample_runtime df_five "y" "iqr");
      [by left | vm_compute; reflexivity].
  - apply (@detect_anomalies_errors sample_runtime df_five "y" "zscore");
      [by right | vm_compute; reflexivity].
Defined.

Lemma detect_anomalies_zscore_few_values_witness :
  exists out,
    @detect_anomalies sample_runtime df_one "x" "zscore" = Ok out /\
    columns out !! "异常" = Some [CBool false].
Proof.
  destruct (@detect_anomalies_zscore_few_values sample_runtime df_one "x"
              [num 7] [of_Z 7]) as (out & Hout & _ & Hf);
    [vm_compute; reflexivity | vm_compute; reflexivity | vm_compute; lia |].
  exists out. split; [exact Hout | exact Hf].
Defined.

(** * Further properties of the filters *)

(** X17: the ways [filter_data] raises.  With one of the three methods, a
    column that the table does not have raises KeyError, and a window below
    0 (below 1 for exponential) raises ValueError.  Any other method raises
    KeyError for the filtered column it has not made, unless the table came
    with one. *)
Theorem filter_data_errors (df : DataFrame) (column method : string) (w : Z) :
  (supported method -> columns df !! column = None ->
   filter_data df column method w = Raise KeyError) /\
  (forall col, columns df !! column = Some col ->
     (method = "moving_average" \/ method = "median") -> (w < 0)%Z ->
     filter_data df column method w = Raise ValueError) /\
  (forall col, columns df !! column = Some col ->
     method = "exponential" -> (w < 1)%Z ->
     filter_data df column method w = Raise ValueError) /\
  (~ supported method -> columns df !! filtered_name column = None ->
   filter_data df column method w = Raise KeyError).
Proof.
  split; [|split; [|split]].
  - intros Hm Hno. unfold filter_data, windowed. rewrite Hno.
    by destruct Hm as [-> | [-> | ->]].
  - intros col Hcol Hm Hw. unfold filter_data, windowed. rewrite Hcol.
    rewrite (proj2 (Z.ltb_lt w 0)) by done.
    by destruct Hm as [-> | ->].
  - intros col Hcol -> Hw. unfold filter_data, windowed. rewrite Hcol.
    by rewrite (proj2 (Z.ltb_lt w 1)) by done.
  - intros Hm Hno. unfold filter_data.
    destruct (String.eqb method "moving_average") eqn:E1.
    { apply String.eqb_eq in E1. destruct Hm. by left. }
    destruct (String.eqb method "exponential") eqn:E2.
    { apply String.eqb_eq in E2. destruct Hm. right. by left. }
    destruct (String.eqb method "median") eqn:E3.
    { apply String.eqb_eq in E3. destruct Hm. right. by right. }
    rewrite result_bind_Ok. by rewrite Hno.
Qed.

Lemma filter_data_errors_witness :
  filter_data df_five "y" "median" 3 = Raise KeyError /\
  filter_data df_five "x" "moving_average" (-1) = Raise ValueError /\
  filter_data df_five "x" "exponential" 0 = Raise ValueError /\
  filter_data df_five "x" "lowpass" 3 = Raise KeyError.
Proof.
  destruct (filter_data_errors df_five "y" "median" 3) as (H1 & _).
  destruct (filter_data_errors df_five "x" "moving_average" (-1))
    as (_ & H2 & _).
  destruct (filter_data_errors df_five "x" "exponential" 0)
    as (_ & _ & H3 & _).
  destruct (filter_data_errors df_five "x" "lowpass" 3)
    as (_ & _ & _ & H5).
  split; [apply H1; [right; by right | vm_compute; reflexivity]|].
  split; [apply (H2 (nums [1; 2; 3; 4; 5]%Z));
          [vm_compute; reflexivity | by left | lia]|].
  split; [apply (H3 (nums [1; 2; 3; 4; 5]%Z));
          [vm_compute; reflexivity | reflexivity | lia]|].
  apply H5; [|vm_compute; reflexivity].
  intros [Hm | [Hm | Hm]]; discriminate Hm.
Defined.

(** ** The median filter picks its values from the column *)

Lemma list_of_lookups {A B} (f : A -> B) (P : A -> Prop) (l : list B) :
  (forall i b, l !! i = Some b -> exists a, b = f a /\ P a) ->
  exists xs, l = map f xs /\ Forall P xs /\ length xs = length l.
Proof.
  induction l as [|b l IH]; intros Hl.
  - exists []. split; [done|]. split; [constructor | done].
  - destruct (Hl 0%nat b) as (a & -> & Ha); [done|].
    destruct IH as (xs & -> & Hxs & Hlen).
    { intros i b Hi. apply (Hl (S i)). done. }
    exists (a :: xs). split; [done|]. split; [by constructor|].
    simpl. by rewrite Hlen, length_map.
Qed.

(** A window holds at most [w] values, all of them values of the Series. *)
Lemma window_values_fin (qs : list Q) (w : Z) (i : nat) (P : Q -> Prop) :
  (0 <= w)%Z -> Forall P qs ->
  exists sub, window_values (map Fin qs) w i = map Fin sub /\ Forall P sub /\
              (Z.of_nat (length sub) <= w)%Z.
Proof.
  intros Hw Hqs. unfold window_values, window_bounds. cbv zeta.
  set (n := length (map Fin qs)).
  set (e := (Z.of_nat i + 1 + (w - 1) / 2)%Z).
  set (a := Z.to_nat (Z.max 0 (Z.min (e - w) (Z.of_nat n)))).
  set (b := Z.to_nat (Z.max 0 (Z.min e (Z.of_nat n)))).
  exists (take (b - a) (drop a qs)). split; [|split].
  - by rewrite skipn_map, firstn_map.
  - by apply Forall_take, Forall_drop.
  - rewrite length_take. subst a b. lia.
Qed.

(** A rolling aggregation that maps a full window of finite values with a
    property to a finite value with that property gives, after the filling
    of the gaps, a column of finite values with the property. *)
Lemma rolling_filled_values (agg : list fl -> fl) (P : Q -> Prop) (w : Z)
    (qs : list Q) :
  (1 <= w)%Z ->
  (forall obs, Z.of_nat (length obs) = w -> Forall P obs ->
     exists y, agg (map Fin obs) = Fin y /\ P y) ->
  Forall P qs ->
  exists ys,
    fillna (map CNum (rolling agg w (map Fin qs))) (map CNum (map Fin qs))
    = map CNum (map Fin ys) /\
    Forall P ys /\ length ys = length qs.
Proof.
  intros Hw Hagg Hqs.
  destruct (list_of_lookups (fun q => CNum (Fin q)) P
              (fillna (map CNum (rolling agg w (map Fin qs)))
                      (map CNum (map Fin qs))))
    as (ys & Hys & Hall & Hlen).
  - intros i b Hi.
    assert (i < length qs)%nat as Hlt.
    { apply lookup_lt_Some in Hi.
      by rewrite fillna_length, length_map, rolling_length, length_map in Hi. }
    destruct (lookup_lt_is_Some_2 qs i Hlt) as [q Hq].
    assert (P q) as Hbq by (by eapply Forall_lookup_1).
    destruct (lookup_lt_is_Some_2 (rolling agg w (map Fin qs)) i)
      as [r Hr]; [by rewrite rolling_length, length_map|].
    rewrite (filled_lookup _ _ i r (Fin q)) in Hi;
      [| apply rolling_length | done | by rewrite list_lookup_fmap, Hq].
    injection Hi as <-.
    rewrite rolling_lookup in Hr by (by rewrite length_map).
    cbv zeta in Hr. injection Hr as <-.
    destruct (window_values_fin qs w i P) as (sub & -> & Hsub & Hle);
      [lia | done |].
    rewrite dropna_fin, length_map.
    destruct ((w <=? Z.of_nat (length sub))%Z && (0 <? length sub)%nat) eqn:E;
      [|eauto].
    apply andb_true_iff in E as [E _]. apply Z.leb_le in E.
    destruct (Hagg sub) as (y & -> & Hy); [lia | done |]. eauto.
  - exists ys. rewrite Hys, map_map. split; [done|]. split; [done|].
    by rewrite Hlen, fillna_length, length_map, rolling_length, length_map.
Qed.

Lemma insert_sorted_fin (P : Q -> Prop) (q : Q) (l : list Q) :
  P q -> Forall P l ->
  exists l', insert_sorted (Fin q) (map Fin l) = map Fin l' /\
             Forall P l' /\ length l' = S (length l).
Proof.
  intros Hq Hl. induction Hl as [|x l Hx Hl IH].
  - exists [q]. split; [done|]. split; [by constructor | done].
  - cbn [map insert_sorted].
    destruct (fle (Fin q) (Fin x)).
    + exists (q :: x :: l). split; [done|]. split; [|done].
      by repeat constructor.
    + destruct IH as (l' & -> & Hl' & Hlen).
      exists (x :: l'). split; [done|]. split; [by constructor|].
      simpl. by rewrite Hlen.
Qed.

Lemma sort_values_fin (P : Q -> Prop) (qs : list Q) :
  Forall P qs ->
  exists l', sort_values (map Fin qs) = map Fin l' /\
             Forall P l' /\ length l' = length qs.
Proof.
  intros Hqs. unfold sort_values. induction Hqs as [|q qs Hq Hqs IH].
  - exists []. split; [done|]. split; [constructor | done].
  - cbn [map foldr]. destruct IH as (l & -> & Hl & Hlen).
    destruct (insert_sorted_fin P q l Hq Hl) as (l' & -> & Hl' & Hlen').
    exists l'. split; [done|]. split; [done|]. simpl. congruence.
Qed.

(** The median of an odd number of finite values is one of them. *)
Lemma median_of_odd (P : Q -> Prop) (obs : list Q) :
  Nat.even (length obs) = false -> Forall P obs ->
  exists y, median_of (map Fin obs) = Fin y /\ P y.
Proof.
  intros Hodd Hobs. unfold median_of. cbv zeta.
  destruct (sort_values_fin _ obs Hobs) as (l & -> & Hl & Hlen).
  rewrite length_map, Hlen.
  destruct (length obs) as [|m] eqn:En; [discriminate|].
  rewrite Hodd.
  assert (S m / 2 < S m)%nat as Hhalf by (apply Nat.div_lt; lia).
  destruct (lookup_lt_is_Some_2 l (S m / 2)) as [q Hq]; [lia|].
  exists q. rewrite list_lookup_fmap, Hq. split; [done|].
  by eapply Forall_lookup_1.
Qed.

(** X18: the median filter with an odd window of at least 1 on a column of
    finite numbers returns; the filtered column has a finite value for
    every row, and every filtered value is one of the values of the raw
    column, so it lies within any bounds that hold for them. *)
Theorem filter_data_median_picks (df : DataFrame) (column : string)
    (w : Z) (col : list cell) (qs : list Q) :
  columns df !! column = Some col -> numeric col = Ok (map Fin qs) ->
  (1 <= w)%Z -> Z.odd w = true ->
  exists out ys,
    filter_data df column "median" w = Ok out /\
    columns out !! filtered_name column = Some (map CNum (map Fin ys)) /\
    length ys = length qs /\
    Forall (fun y => y ∈ qs) ys /\
    forall lo hi, Forall (between lo hi) qs -> Forall (between lo hi) ys.
Proof.
  intros Hcol Hs Hw Hodd.
  destruct (filter_data_ok df column "median" w col (map Fin qs))
    as (out & Hout & _ & Hf); [done | done | right; by right | done |].
  pose proof (numeric_inv _ _ Hs) as ->. exists out.
  unfold filter_values in Hf. cbn [String.eqb Ascii.eqb Bool.eqb] in Hf.
  destruct (rolling_filled_values median_of (fun y => y ∈ qs) w qs)
    as (ys & Hys & Hall & Hlen); [done | | |].
  - intros obs Hlen Hobs. apply median_of_odd; [|done].
    apply Z.odd_spec in Hodd as [k Hk].
    destruct (Nat.even (length obs)) eqn:E; [|done].
    apply Nat.even_spec in E as [m Hm]. lia.
  - apply Forall_forall. auto.
  - exists ys. rewrite Hf, Hys. split; [done|]. split; [done|].
    split; [done|]. split; [done|].
    intros lo hi Hqs. apply Forall_forall. intros y Hy.
    rewrite Forall_forall in Hall, Hqs. auto.
Qed.

Lemma filter_data_median_picks_witness :
  exists out ys,
    filter_data df_five "x" "median" 3 = Ok out /\
    columns out !! "x_filtered" = Some (map CNum (map Fin ys)) /\
    Forall (between 1 5) ys.
Proof.
  destruct (filter_data_median_picks df_five "x" 3
              (nums [1; 2; 3; 4; 5]%Z) (map inject_Z [1; 2; 3; 4; 5]%Z))
    as (out & ys & Hout & Hf & _ & _ & Hall);
    [vm_compute; reflexivity | vm_compute; reflexivity | lia | reflexivity |].
  exists out, ys. split; [exact Hout|]. split; [exact Hf|].
  apply Hall. repeat constructor; vm_compute; discriminate.
Defined.

(** * Further properties of the records *)

Section RecordsMore.
Context `{Runtime}.

Lemma prepare_rows_inv (exp_id : string) (rows : list (Z * gmap string cell)) :
  forall k recs, prepare_rows exp_id k rows = Ok recs ->
  length recs = length rows /\
  forall i idx row, rows !! i = Some (idx, row) ->
    exists r, recs !! i = Some r /\
              make_record exp_id (k + i) idx row = Ok r.
Proof.
  induction rows as [|[idx row] rows IH]; intros k recs Hp.
  - simpl in Hp. assert (recs = []) as ->
      by exact (f_equal (fun x => match x with Ok a => a | _ => recs end)
                        (eq_sym Hp)).
    split; [done|]. intros i ? ? Hi. by rewrite lookup_nil in Hi.
  - cbn [prepare_rows] in Hp.
    destruct (make_record exp_id k idx row) as [r|] eqn:Hr; [|discriminate].
    rewrite result_bind_Ok in Hp.
    destruct (prepare_rows exp_id (S k) rows) as [rs|] eqn:Hrs; [|discriminate].
    rewrite result_bind_Ok in Hp.
    assert (recs = r :: rs) as ->
      by exact (f_equal (fun x => match x with Ok a => a | _ => recs end)
                        (eq_sym Hp)).
    destruct (IH (S k) rs Hrs) as [Hlen Hall].
    split; [simpl; congruence|].
    intros [|i] idx' row' Hi; simpl in Hi.
    + assert (idx' = idx /\ row' = row) as [-> ->]
        by (split; congruence).
      exists r. rewrite Nat.add_0_r. done.
    + destruct (Hall i idx' row' Hi) as (r' & Hl & Hmk).
      exists r'. split; [done|]. rewrite <- Hmk. f_equal. lia.
Qed.

Lemma optional_float_none (row : gmap string cell) (key : string)
    (o : option fl) :
  optional_float row key = Ok o -> (row !! key = None <-> o = None).
Proof.
  unfold optional_float. destruct (row !! key) as [c|].
  - destruct (py_float c) as [x|]; [|discriminate].
    rewrite result_bind_Ok. intros Ho.
    assert (o = Some x) as ->
      by exact (f_equal (fun y => match y with Ok a => a | _ => o end)
                        (eq_sym Ho)).
    split; discriminate.
  - intros Ho.
    assert (o = None) as ->
      by exact (f_equal (fun y => match y with Ok a => a | _ => o end)
                        (eq_sym Ho)).
    done.
Qed.

(** X19: in the records that [prepare_for_database] returns, every record
    carries the experiment id of the call; a row without device address
    gets address 1 and a row without device type gets the type 未知, while
    a text in the type column is kept; temperature and humidity are left out
    of the record exactly when the row has no such column; and a number in
    the current, voltage or power column is passed on as it is (a NaN
    stays a NaN, it is not replaced by the default 0). *)
Theorem prepare_for_database_fields (df : DataFrame) (exp_id : string)
    (recs : list record) :
  prepare_for_database df exp_id = Ok recs ->
  length recs = length (index df) /\
  forall i idx row, iterrows df !! i = Some (idx, row) ->
    exists r, recs !! i = Some r /\
      experiment_id r = exp_id /\
      (row !! "设备地址" = None -> device_address r = 1%Z) /\
      (row !! "设备类型" = None -> device_type r = "未知") /\
      (forall s, row !! "设备类型" = Some (CStr s) -> device_type r = s) /\
      (row !! "温度" = None <-> temperature r = None) /\
      (row !! "湿度" = None <-> humidity r = None) /\
      (forall x, row !! "电流" = Some (CNum x) -> current r = x) /\
      (forall x, row !! "电压" = Some (CNum x) -> voltage r = x) /\
      (forall x, row !! "功率" = Some (CNum x) -> power r = x).
Proof.
  unfold prepare_for_database. intros Hp.
  apply prepare_rows_inv in Hp as [Hlen Hall].
  split; [by rewrite Hlen; unfold iterrows; rewrite length_imap|].
  intros i idx row Hi. destruct (Hall i idx row Hi) as (r & Hr & Hm).
  exists r. split; [done|].
  apply make_record_inv in Hm
    as (Hid & _ & Hc & Hv & Hpw & Ha & Ht & Htemp & Hhum).
  split; [done|].
  split.
  { intros Hno. rewrite Hno in Ha.
    assert (Ok 1%Z = Ok (device_address r)) as Ha' by exact Ha.
    congruence. }
  split. { intros Hno. by rewrite Ht, Hno. }
  split. { intros s Hs. by rewrite Ht, Hs. }
  split; [by apply optional_float_none|].
  split; [by apply optional_float_none|].
  split. { intros x Hx. rewrite Hx in Hc. simpl in Hc. congruence. }
  split. { intros x Hx. rewrite Hx in Hv. simpl in Hv. congruence. }
  intros x Hx. rewrite Hx in Hpw. simpl in Hpw. congruence.
Qed.

End RecordsMore.

Section RecordsFailure.
Context `{Runtime}.

(** X20: the records are all or nothing.  When some row has an empty cell
    (None) under current, voltage, power, temperature or humidity, or an
    empty or NaN cell under the device address, [prepare_for_database]
    raises and no record, of that row or of any other, is returned. *)
Theorem prepare_for_database_raises (df : DataFrame) (exp_id : string)
    (i : nat) (idx : Z) (row : gmap string cell) :
  iterrows df !! i = Some (idx, row) ->
  (exists key, key ∈ float_keys /\ row !! key = Some CNull) \/
  row !! "设备地址" = Some CNull \/ row !! "设备地址" = Some (CNum NaN) ->
  exists e, prepare_for_database df exp_id = Raise e.
Proof.
  intros Hi Hbad.
  destruct (prepare_for_database df exp_id) as [recs|e] eqn:Hp; [|eauto].
  exfalso. unfold prepare_for_database in Hp.
  apply prepare_rows_inv in Hp as [_ Hall].
  destruct (Hall i idx row Hi) as (r & _ & Hm).
  apply make_record_inv in Hm
    as (_ & _ & Hc & Hv & Hpw & Ha & _ & Htemp & Hhum).
  destruct Hbad as [(key & Hkey & Hnull) | [Hnull | Hnan]].
  - unfold float_keys in Hkey. rewrite !elem_of_cons in Hkey.
    unfold optional_float in Htemp, Hhum.
    destruct Hkey as [-> | [-> | [-> | [-> | [-> | Hnil]]]]];
      [| | | | |by apply elem_of_nil in Hnil];
      rewrite Hnull in *; discriminate.
  - rewrite Hnull in Ha. discriminate.
  - rewrite Hnan in Ha. discriminate.
Qed.

(** X21: validation followed by the preparation of the records, on the
    table that the validation has left.  When the validation says valid
    and the cells under device address, temperature and humidity can be
    converted, the records are returned, one per row, and every record has
    a finite current in [0, 1000], a finite voltage in [0, 10000] and a
    power that is not NaN. *)
Theorem validate_then_prepare (df df' : DataFrame) (errors : list string)
    (exp_id : string) :
  validate_experiment_data df = Ok (df', (true, errors)) ->
  (forall key col, key ∈ ["设备地址"; "温度"; "湿度"] ->
     columns df' !! key = Some col ->
     forallb (cell_convertible key) col = true) ->
  exists recs,
    prepare_for_database df' exp_id = Ok recs /\
    length recs = length (index df) /\
    forall r, r ∈ recs ->
      exists qc qv, current r = Fin qc /\ (0 <= qc <= 1000)%Q /\
                    voltage r = Fin qv /\ (0 <= qv <= 10000)%Q /\
                    is_nan (power r) = false.
Proof.
  intros Hv Hother.
  destruct (valid_table _ _ _ Hv)
    as (_ & qi & qv & sp & Hci & Hcv & Hcp & Hqi & Hqv & Hsp).
  assert (index df' = index df) as Hidx.
  { destruct (validate_experiment_data_inv _ _ _ _ Hv) as (-> & _).
    by rewrite coerced_index, normalize_columns_index. }
  assert (convertible df') as Hconv.
  { intros key col Hcol. simpl. apply forallb_forall. intros c Hc.
    unfold cell_convertible.
    destruct (bool_decide (key ∈ float_keys)) eqn:Ek.
    - apply bool_decide_eq_true in Ek. unfold float_keys in Ek.
      rewrite !elem_of_cons in Ek.
      assert (forall xs : list fl, col = map CNum xs ->
                is_ok (py_float c) = true) as Hnum.
      { intros xs ->. apply in_map_iff in Hc as (x & <- & _). done. }
      destruct Ek as [-> | [-> | [-> | [-> | [-> | Hnil]]]]];
        [| | | | |by apply elem_of_nil in Hnil].
      + rewrite (Hnum (map Fin qi)) by congruence. done.
      + rewrite (Hnum (map Fin qv)) by congruence. done.
      + rewrite (Hnum sp) by congruence. done.
      + pose proof (Hother "温度" col) as Ho.
        rewrite forallb_forall in Ho. specialize (Ho ltac:(by_computation) Hcol c Hc).
        unfold cell_convertible in Ho.
        by rewrite bool_decide_eq_true_2 in Ho by by_computation.
      + pose proof (Hother "湿度" col) as Ho.
        rewrite forallb_forall in Ho. specialize (Ho ltac:(by_computation) Hcol c Hc).
        unfold cell_convertible in Ho.
        by rewrite bool_decide_eq_true_2 in Ho by by_computation.
    - destruct (bool_decide (key = "设备地址")) eqn:Ea; [|done].
      apply bool_decide_eq_true in Ea. subst key.
      pose proof (Hother "设备地址" col) as Ho.
      rewrite forallb_forall in Ho. specialize (Ho ltac:(by_computation) Hcol c Hc).
      unfold cell_convertible in Ho.
      by rewrite Ek, bool_decide_eq_true_2 in Ho by done. }
  destruct (prepare_rows_ok exp_id (iterrows df') 0) as (recs & Hrecs & Hlen & _).
  { intros i idx row Hi. eapply convertible_row; eauto. }
  exists recs. split; [done|].
  split; [by rewrite Hlen; unfold iterrows; rewrite length_imap, Hidx|].
  intros r Hr. apply list_elem_of_lookup in Hr as [i Hr].
  apply prepare_rows_inv in Hrecs as [Hlen' Hall].
  destruct (lookup_lt_is_Some_2 (iterrows df') i) as [[idx row] Hrow].
  { rewrite <- Hlen'. by eapply lookup_lt_Some. }
  destruct (Hall i idx row Hrow) as (r' & Hr' & Hm).
  assert (r' = r) as -> by congruence.
  apply make_record_inv in Hm as (_ & _ & Hc & Hvl & Hpw & _).
  apply iterrows_lookup in Hrow as [_ ->].
  rewrite lookup_omap in Hc, Hvl, Hpw.
  rewrite Hci in Hc. rewrite Hcv in Hvl. rewrite Hcp in Hpw.
  simpl in Hc, Hvl, Hpw. rewrite !list_lookup_fmap in Hc, Hvl.
  rewrite list_lookup_fmap in Hpw.
  assert (forall (qs : list Q) (hi : Q) (x : fl),
            Forall (fun q => 0 <= q <= hi)%Q qs -> (0 <= hi)%Q ->
            py_float (default (CNum (Fin 0))
                        (CNum <$> (Fin <$> qs !! i))) = Ok x ->
            exists q, x = Fin q /\ (0 <= q <= hi)%Q) as Hrange.
  { intros qs hi x Hqs Hhi Hx.
    destruct (qs !! i) as [q|] eqn:Eq; simpl in Hx.
    - exists q. split; [congruence|].
      exact (Forall_lookup_1 _ _ _ _ Hqs Eq).
    - exists 0%Q. split; [congruence | lra]. }
  destruct (Hrange qi 1000%Q _ Hqi ltac:(lra) Hc) as (qc & Hqc & Hrc).
  destruct (Hrange qv 10000%Q _ Hqv ltac:(lra) Hvl) as (qv' & Hqv' & Hrv).
  exists qc, qv'. split; [done|]. split; [done|]. split; [done|].
  split; [done|].
  destruct (sp !! i) as [x|] eqn:Ex; simpl in Hpw.
  - assert (power r = x) as -> by congruence.
    apply Hsp. by eapply list_elem_of_lookup_2.
  - assert (power r = Fin 0) as -> by congruence. done.
Qed.

End RecordsFailure.

Lemma prepare_for_database_fields_witness :
  exists recs r,
    @prepare_for_database sample_runtime df_bare "e1" = Ok recs /\
    recs !! 1%nat = Some r /\
    experiment_id r = "e1" /\ device_address r = 1%Z /\
    device_type r = "PVRSD" /\ temperature r = None.
Proof.
  destruct (@prepare_rows_ok sample_runtime "e1" (iterrows df_bare) 0)
    as (recs & Hrecs & _).
  { intros i idx row Hi.
    exact (@convertible_row sample_runtime df_bare i idx row
             df_bare_convertible Hi). }
  destruct (@prepare_for_database_fields sample_runtime df_bare "e1" recs Hrecs)
    as [_ Hall].
  destruct (Hall 1%nat 1%Z
              (omap (fun col : list cell => col !! 1%nat) (columns df_bare)))
    as (r & Hr & Hid & Haddr & _ & Htype & Htemp & _);
    [vm_compute; reflexivity|].
  exists recs, r. split; [exact Hrecs|]. split; [exact Hr|].
  split; [exact Hid|]. split; [apply Haddr; vm_compute; reflexivity|].
  split; [apply Htype; vm_compute; reflexivity|].
  apply Htemp. vm_compute. reflexivity.
Defined.

Lemma prepare_for_database_raises_witness :
  exists e, @prepare_for_database sample_runtime df_devices "e1" = Raise e.
Proof.
  apply (@prepare_for_database_raises sample_runtime df_devices "e1" 1%nat 1%Z
           (omap (fun col : list cell => col !! 1%nat) (columns df_devices)));
    [vm_compute; reflexivity|].
  left. exists "功率". split; [by_computation | vm_compute; reflexivity].
Defined.

Lemma validate_then_prepare_witness :
  exists recs,
    @validate_experiment_data sample_runtime df_english
      = Ok (@coerced sample_runtime (normalize_columns df_english), (true, [])) /\
    @prepare_for_database sample_runtime
      (@coerced sample_runtime (normalize_columns df_english)) "e1" = Ok recs /\
    length recs = 2%nat.
Proof.
  assert (@validate_experiment_data sample_runtime df_english
          = Ok (@coerced sample_runtime (normalize_columns df_english),
                (true, []))) as E by (vm_compute; reflexivity).
  destruct (@validate_then_prepare sample_runtime df_english _ [] "e1" E)
    as (recs & Hrecs & Hlen & _).
  { intros key col Hkey Hcol. exfalso.
    rewrite !elem_of_cons in Hkey.
    destruct Hkey as [Hk | [Hk | [Hk | Hnil]]];
      [ rewrite Hk in Hcol;
        rewrite coerced_lookup in Hcol;
        rewrite bool_decide_eq_false_2 in Hcol by by_computation;
        rewrite normalize_columns_other in Hcol by by_computation;
        vm_compute in Hcol; discriminate Hcol ..
      | by apply elem_of_nil in Hnil ]. }
  exists recs. split; [exact E|]. split; [exact Hrecs | exact Hlen].
Defined.

(** * The interquartile rule on a column without spread *)

Lemma sort_values_constant (n : nat) (q : Q) :
  sort_values (map Fin (replicate n q)) = map Fin (replicate n q).
Proof.
  unfold sort_values. induction n as [|n IH]; [done|].
  cbn [replicate map foldr]. rewrite IH.
  destruct n as [|n]; [done|]. cbn [replicate map insert_sorted].
  assert (fle (Fin q) (Fin q) = true) as ->; [|done].
  unfold fle, flt, Qlt_bool. rewrite negb_involutive.
  apply Qle_bool_iff. lra.
Qed.

Lemma series_quantile_constant (r : Q) (m : nat) (q : Q) :
  (0 <= r <= 1)%Q ->
  exists a, series_quantile r (map Fin (replicate (S m) q)) = Fin a /\
            (a == q)%Q.
Proof.
  intros [Hr0 Hr1]. unfold series_quantile.
  rewrite dropna_fin, sort_values_constant, length_map, length_replicate.
  cbv zeta.
  set (pos := (r * inject_Z (Z.of_nat m))%Q).
  assert (0 <= inject_Z (Z.of_nat m))%Q as Hm
    by (change 0%Q with (inject_Z 0); rewrite <- Zle_Qle; lia).
  assert (0 <= pos /\ pos <= inject_Z (Z.of_nat m))%Q as [Hp0 Hp1]
    by (unfold pos; split; nra).
  assert (0 <= Qfloor pos)%Z as Hlo0.
  { change 0%Z with (Qfloor (inject_Z 0)). by apply Qfloor_resp_le. }
  assert (Qfloor pos <= Z.of_nat m)%Z as Hlo1.
  { rewrite <- (Qfloor_Z (Z.of_nat m)). by apply Qfloor_resp_le. }
  assert (forall k, (k < S m)%nat ->
            default NaN (map Fin (replicate (S m) q) !! k) = Fin q) as Hat.
  { intros k Hk. rewrite list_lookup_fmap, lookup_replicate_2 by done. done. }
  rewrite Hat by lia.
  destruct (Qeq_bool (pos - inject_Z (Qfloor pos)) 0) eqn:E.
  - exists q. split; [done | reflexivity].
  - assert (Qfloor pos < Z.of_nat m)%Z as Hlt.
    { destruct (Z.eq_dec (Qfloor pos) (Z.of_nat m)) as [Heq|Hne]; [|lia].
      exfalso. assert (pos - inject_Z (Qfloor pos) == 0)%Q as Hz.
      { pose proof (Qfloor_le pos) as Hf. rewrite Heq in *. lra. }
      apply Qeq_bool_iff in Hz. congruence. }
    rewrite Hat by lia. cbn [fsub fneg fadd fmul].
    eexists. split; [done|]. ring.
Qed.

Section InterquartileConstant.
Context `{Runtime}.

(** X22: with method iqr on a column whose values are all the same finite
    number, both quartiles are that number, the interquartile range is 0,
    and no row is flagged. *)
Theorem detect_anomalies_iqr_constant (df : DataFrame) (column : string)
    (col : list cell) (n : nat) (q : Q) :
  columns df !! column = Some col ->
  numeric col = Ok (map Fin (replicate n q)) ->
  exists out,
    detect_anomalies df column "iqr" = Ok out /\
    index out = index df /\
    columns out !! "异常" = Some (replicate n (CBool false)).
Proof.
  intros Hcol Hs. unfold detect_anomalies, series.
  cbn [String.eqb Ascii.eqb Bool.eqb]. rewrite Hcol, Hs, result_bind_Ok.
  cbv zeta. eexists. split; [reflexivity|]. split; [done|].
  unfold set_column. cbn [columns]. rewrite lookup_insert_eq. f_equal.
  destruct n as [|m]; [done|].
  destruct (series_quantile_constant (1 # 4) m q) as (a & -> & Ha); [lra|].
  destruct (series_quantile_constant (3 # 4) m q) as (b & -> & Hb); [lra|].
  cbn [fsub fneg fadd fmul]. rewrite map_map.
  set (f := fun x : Q => CBool _).
  assert (forall k, map f (replicate k q) = replicate k (CBool false)) as Hrep.
  { assert (f q = CBool false) as Hf.
    { unfold f. f_equal. unfold fgt, flt, Qlt_bool.
      rewrite orb_false_iff, !negb_false_iff. split; apply Qle_bool_iff.
      - rewrite Ha, Hb. ring_simplify. lra.
      - rewrite Ha, Hb. ring_simplify. lra. }
    induction k as [|k IH]; [done|]. simpl. by rewrite Hf, IH. }
  apply Hrep.
Qed.

End InterquartileConstant.

Lemma detect_anomalies_iqr_constant_witness :
  exists out,
    @detect_anomalies sample_runtime
      (mkDF [0; 1; 2]%Z {[ "x" := nums [5; 5; 5]%Z ]}) "x" "iqr" = Ok out /\
    columns out !! "异常" = Some [CBool false; CBool false; CBool false].
Proof.
  destruct (@detect_anomalies_iqr_constant sample_runtime
              (mkDF [0; 1; 2]%Z {[ "x" := nums [5; 5; 5]%Z ]}) "x"
              (nums [5; 5; 5]%Z) 3 5)
    as (out & Hout & _ & Hf); [vm_compute; reflexivity..|].
  exists out. split; [exact Hout | exact Hf].
Defined.
